(** * Token risk pipeline: the orchestrator and the report viewer

    A shallow embedding of [full_risk_score_analysis.py] (the per-token
    pipeline loop) and of [dashboard.py] (artifact discovery, the report
    parser, the table loader and the viewer script), with the properties
    the design document states about them.

    Python values are modelled as follows.
    - a [str] is the list of its Unicode code points ([N]);
    - [re] patterns are terms of [regex], run by a backtracking matcher
      that follows [re]'s search order (leftmost start, greedy
      repetition, ordered alternation);
    - the metrics dict, with its fixed keys, is a [gmap]; the discovery
      dict, whose key order fills the select boxes, is an
      insertion-ordered association list;
    - raising is a [Raise] result; [try/except Exception] catches exactly
      the exceptions that derive from [Exception];
    - a float64 of the table is a primitive [float] (binary64), so
      not-a-number is the real NaN; a score read from a report is kept as
      the decimal it was written as.

    What lies outside the two scripts is taken as data:
    - the file system and pandas, as the record [world]; the sort of
      [sort_values] is a field of it, with the contract pandas documents
      for its default kind ([pandas_sorted_desc]);
    - the partner modules of the pipeline, as the record [partners]: what
      each of their calls does, turn by turn. *)

From Stdlib Require Import ZArith NArith List String Ascii Lia Floats Permutation.
From stdpp Require Import gmap strings list.

Local Open Scope N_scope.

(** ** Python strings *)

Module PyStr.

Definition char := N.
Definition str := list N.

(** An ASCII literal of the source as a [str]. *)
Definition lit (s : string) : str :=
  List.map N_of_ascii (list_ascii_of_string s).

Definition newline : char := 10.

(** [str.startswith], returning the remainder. *)
Fixpoint strip_prefix (p s : str) : option str :=
  match p, s with
  | [], _ => Some s
  | _ :: _, [] => None
  | a :: p', b :: s' => if N.eqb a b then strip_prefix p' s' else None
  end.

(** [p in s] for strings. *)
Fixpoint contains (p s : str) : bool :=
  match strip_prefix p s with
  | Some _ => true
  | None => match s with [] => false | _ :: s' => contains p s' end
  end.

(** The decimal digits of Unicode (general category Nd): each range
    holds the digits 0..9 in order, one or more times. *)
Definition decimal_ranges : list (N * N) :=
  [ (48, 57); (1632, 1641); (1776, 1785); (1984, 1993); (2406, 2415);
    (2534, 2543); (2662, 2671); (2790, 2799); (2918, 2927); (3046, 3055);
    (3174, 3183); (3302, 3311); (3430, 3439); (3558, 3567); (3664, 3673);
    (3792, 3801); (3872, 3881); (4160, 4169); (4240, 4249); (6112, 6121);
    (6160, 6169); (6470, 6479); (6608, 6617); (6784, 6793); (6800, 6809);
    (6992, 7001); (7088, 7097); (7232, 7241); (7248, 7257); (42528, 42537);
    (43216, 43225); (43264, 43273); (43472, 43481); (43504, 43513);
    (43600, 43609); (44016, 44025); (65296, 65305); (66720, 66729);
    (68912, 68921); (69734, 69743); (69872, 69881); (69942, 69951);
    (70096, 70105); (70384, 70393); (70736, 70745); (70864, 70873);
    (71248, 71257); (71360, 71369); (71472, 71481); (71904, 71913);
    (72016, 72025); (72784, 72793); (73040, 73049); (73120, 73129);
    (92768, 92777); (92864, 92873); (93008, 93017); (120782, 120831);
    (123200, 123209); (123632, 123641); (125264, 125273);
    (130032, 130041) ].

Definition in_range (c : char) (r : N * N) : bool :=
  N.leb (fst r) c && N.leb c (snd r).

(** [\d] on a [str] pattern. *)
Definition is_digit (c : char) : bool := existsb (in_range c) decimal_ranges.

(** The value of a decimal digit, as [int] and [float] read it. *)
Definition digit_value (c : char) : option N :=
  match List.find (in_range c) decimal_ranges with
  | Some (lo, _) => Some ((c - lo) mod 10)
  | None => None
  end.

(** [\s] on a [str] pattern: Unicode white space. *)
Definition whitespace : list char :=
  [ 9; 10; 11; 12; 13; 28; 29; 30; 31; 32; 133; 160; 5760; 8192; 8193;
    8194; 8195; 8196; 8197; 8198; 8199; 8200; 8201; 8202; 8232; 8233;
    8239; 8287; 12288 ].

Definition is_space (c : char) : bool := existsb (N.eqb c) whitespace.

(** Lexicographic order on code points, the order of [list.sort] on
    strings. *)
Fixpoint str_ltb (a b : str) : bool :=
  match a, b with
  | _, [] => false
  | [], _ :: _ => true
  | x :: a', y :: b' => N.ltb x y || (N.eqb x y && str_ltb a' b')
  end.

End PyStr.
Import PyStr.

(** ** Regular expressions, as [re] runs them *)

Module Re.

(** Character sets: [.], [\d], [\s], one character, and unions such as
    [[\d\.]]. *)
Inductive cset :=
| CAny
| CDigit
| CSpace
| CChar (c : char)
| CUnion (a b : cset).

Fixpoint cset_mem (cs : cset) (c : char) : bool :=
  match cs with
  | CAny => negb (N.eqb c newline)
  | CDigit => is_digit c
  | CSpace => is_space c
  | CChar d => N.eqb c d
  | CUnion a b => cset_mem a c || cset_mem b c
  end.

(** The fragment of [re] syntax the two scripts use.  Repetition is
    always of a character set, as in the source's patterns. *)
Inductive regex :=
| Lit (s : str)
| Rep (cs : cset) (lo : nat) (hi : option nat)
| Seq (r1 r2 : regex)
| Alt (r1 r2 : regex)
| Group (n : nat) (r : regex).

Abbreviation caps := (gmap nat str).

Definition more_allowed (hi : option nat) : bool :=
  match hi with Some O => false | _ => true end.

Definition dec_hi (hi : option nat) : option nat :=
  match hi with Some n => Some (Nat.pred n) | None => None end.

(** Greedy repetition with backtracking: take one more character when
    the set and the upper bound allow it, and fall back to stopping
    here when everything after that fails. *)
Fixpoint rep {R} (cs : cset) (lo : nat) (hi : option nat) (s : str)
         (k : str -> str -> option R) : option R :=
  let stop := match lo with O => k [] s | S _ => None end in
  match s with
  | c :: s' =>
      if cset_mem cs c && more_allowed hi then
        match rep cs (Nat.pred lo) (dec_hi hi) s' (fun m r => k (c :: m) r) with
        | Some x => Some x
        | None => stop
        end
      else stop
  | [] => stop
  end.

(** [rmatch r s g k]: match [r] at the start of [s]; the continuation
    receives the matched text, the rest of the input and the groups. *)
Fixpoint rmatch {R} (r : regex) (s : str) (g : caps)
         (k : str -> str -> caps -> option R) : option R :=
  match r with
  | Lit l =>
      match strip_prefix l s with
      | Some s' => k l s' g
      | None => None
      end
  | Rep cs lo hi => rep cs lo hi s (fun m s' => k m s' g)
  | Seq r1 r2 =>
      rmatch r1 s g (fun m1 s1 g1 =>
      rmatch r2 s1 g1 (fun m2 s2 g2 => k (m1 ++ m2) s2 g2))
  | Alt r1 r2 =>
      match rmatch r1 s g k with
      | Some x => Some x
      | None => rmatch r2 s g k
      end
  | Group n r1 => rmatch r1 s g (fun m s' g' => k m s' (<[n := m]> g'))
  end.

(** A match anchored at the start of [s]; group 0 is the whole match. *)
Definition match_here (r : regex) (s : str) : option caps :=
  rmatch r s ∅ (fun m _ g => Some (<[O := m]> g)).

(** [re.search]: the first start position with a match. *)
Fixpoint search (r : regex) (s : str) : option caps :=
  match match_here r s with
  | Some g => Some g
  | None => match s with [] => None | _ :: s' => search r s' end
  end.

(** [match.group(n)]; [None] for a group that took no part. *)
Definition group (m : caps) (n : nat) : option str := m !! n.

Definition one (cs : cset) : regex := Rep cs 1 (Some 1%nat).
Definition plus (cs : cset) : regex := Rep cs 1 None.
Definition star (cs : cset) : regex := Rep cs 0 None.
Definition exactly (n : nat) (cs : cset) : regex := Rep cs n (Some n).

End Re.
Import Re.

Infix ">>" := Seq (at level 60, right associativity).

(** ** dashboard.py: the filename parser *)

(** [(.+)_risk_(analysis|report)_(\d{8}_\d{6})\.(csv|txt)] *)
Definition filename_re : regex :=
  Group 1 (plus CAny) >> Lit (lit "_risk_") >>
  Group 2 (Alt (Lit (lit "analysis")) (Lit (lit "report"))) >> Lit (lit "_") >>
  Group 3 (exactly 8 CDigit >> Lit (lit "_") >> exactly 6 CDigit) >>
  Lit (lit ".") >> Group 4 (Alt (Lit (lit "csv")) (Lit (lit "txt"))).

(** Returns (token, date, type), or three [None]s. *)
Definition parse_filename (filename : str) : option str * option str * option str :=
  match search filename_re filename with
  | Some m => (group m 1, group m 3, group m 2)
  | None => (None, None, None)
  end.

(** ** Exceptions and results *)

(** The exceptions the two scripts meet.  The last three derive from
    [BaseException] only, so [except Exception] lets them through. *)
Inductive io_error :=
| FileNotFoundError
| PermissionError
| NotADirectoryError
| UnicodeDecodeError
| ParserError.

Inductive pykey := KNone | KStr (s : str).

Inductive exn :=
| KeyError (key : pykey)
| ValueError (msg : string)
| TypeError (msg : string)
| IOError (e : io_error)
| Failure (what : string)
| SystemExit (code : Z)
| KeyboardInterrupt
| StopException.

Definition is_Exception (e : exn) : bool :=
  match e with
  | SystemExit _ | KeyboardInterrupt | StopException => false
  | _ => true
  end.

Inductive result (A : Type) :=
| Ret (a : A)
| Raise (e : exn).
Arguments Ret {A} a.
Arguments Raise {A} e.

(** What a call into the file system or into pandas' reader gives: a
    value, or one of the I/O errors, all of which are [Exception]s. *)
Inductive io_result (A : Type) :=
| IoOk (a : A)
| IoFail (e : io_error).
Arguments IoOk {A} a.
Arguments IoFail {A} e.

Definition of_io {A} (r : io_result A) : result A :=
  match r with
  | IoOk a => Ret a
  | IoFail e => Raise (IOError e)
  end.

(** ** Scripts

    A script writes output as it goes and ends with a value or with an
    exception: [Script O A] is the output so far, of events [O], and the
    result. *)
Definition Script (O A : Type) : Type := list O * result A.

Definition ret {O A} (a : A) : Script O A := ([], Ret a).
Definition raise {O A} (e : exn) : Script O A := ([], Raise e).
Definition emit {O} (u : O) : Script O unit := ([u], Ret tt).
Definition lift {O A} (r : result A) : Script O A := ([], r).

Definition bind {O A B} (c : Script O A) (k : A -> Script O B) : Script O B :=
  match c with
  | (out, Ret a) => let '(out', r) := k a in (out ++ out', r)
  | (out, Raise e) => (out, Raise e)
  end.

Notation "x <- c ;; k" := (bind c (fun x => k))
  (at level 100, c at next level, right associativity).
Notation "c ;;; k" := (bind c (fun _ => k))
  (at level 100, right associativity).

(** [try: body except Exception as e: handler e] *)
Definition try_except {O A} (body : Script O A) (handler : exn -> Script O A)
  : Script O A :=
  match body with
  | (out, Ret a) => (out, Ret a)
  | (out, Raise e) =>
      if is_Exception e
      then let '(out', r) := handler e in (out ++ out', r)
      else (out, Raise e)
  end.

(** ** Insertion-ordered dictionaries with [str] keys *)

Module Dict.

Fixpoint str_eqb (a b : str) : bool :=
  match a, b with
  | [], [] => true
  | x :: a', y :: b' => N.eqb x y && str_eqb a' b'
  | _, _ => false
  end.

Definition dict (V : Type) := list (str * V).

Fixpoint get {V} (d : dict V) (k : str) : option V :=
  match d with
  | [] => None
  | (k', v) :: d' => if str_eqb k k' then Some v else get d' k
  end.

(** [d[k] = v]: an existing key keeps its place, a new one goes last. *)
Fixpoint set {V} (d : dict V) (k : str) (v : V) : dict V :=
  match d with
  | [] => [(k, v)]
  | (k', v') :: d' => if str_eqb k k' then (k, v) :: d' else (k', v') :: set d' k v
  end.

Definition keys {V} (d : dict V) : list str := List.map fst d.

(** [d[k]] as an expression. *)
Definition getitem {V} (d : dict V) (k : str) : result V :=
  match get d k with
  | Some v => Ret v
  | None => Raise (KeyError (KStr k))
  end.

End Dict.

(** ** Tables *)

Inductive cell :=
| CFloat (f : float)
| CText (s : str).

Abbreviation row := (list cell).

Record dataframe := { columns : list str; rows : list row }.

Definition empty_frame : dataframe := {| columns := []; rows := [] |}.

(** [df.empty]: no column or no row. *)
Definition df_empty (df : dataframe) : bool :=
  match columns df, rows df with
  | _ :: _, _ :: _ => false
  | _, _ => true
  end.

Fixpoint index_of (name : str) (cols : list str) : option nat :=
  match cols with
  | [] => None
  | c :: cols' =>
      if Dict.str_eqb name c then Some O
      else match index_of name cols' with Some i => Some (S i) | None => None end
  end.

(** The score of a row: the float in the given column. *)
Definition score_at (i : nat) (r : row) : float :=
  match r !! i with
  | Some (CFloat f) => f
  | _ => nan
  end.

(** ** The world the viewer reads *)

Inductive file :=
| Absent
| Unreadable
| Undecodable
| Text (content : str).

(** Everything outside [dashboard.py]: the file system, and the three
    pandas operations the script calls.
    - [read_csv] is [pd.read_csv] on a path;
    - [numeric_text] is the number [pd.to_numeric] reads in a text cell,
      if it reads one;
    - [quicksort_desc key rows] is the order in which
      [sort_values(ascending=False)], with its default [kind='quicksort']
      and [na_position='last'], returns the rows. *)
Record world := {
  path_exists : str -> bool;
  listdir : str -> io_result (list str);
  file_at : str -> file;
  read_csv : str -> io_result dataframe;
  numeric_text : str -> option float;
  quicksort_desc : (row -> float) -> list row -> list row;
  int_max_str_digits : option nat
}.

(** What pandas documents for that sort: the rows are rearranged, no row
    comes before a row with a larger score, and rows without a score come
    last.  The default kind is not a stable sort, so nothing is said about
    rows with equal scores. *)
Definition may_precede (x y : float) : bool :=
  (negb (PrimFloat.is_nan x) || PrimFloat.is_nan y) && negb (PrimFloat.ltb x y).

Definition pandas_sorted_desc (key : row -> float) (input output : list row) : Prop :=
  Permutation input output /\
  ForallOrdPairs (fun a b => may_precede (key a) (key b) = true) output.

(** ** The viewer's output

    One event for each call that renders something, in the order of the
    calls; calls that only arrange the page (columns, the sidebar block)
    leave no event. *)

Inductive num :=
| PyFloat (mantissa : N) (scale : nat)
| PyInt (n : N).

Inductive ui :=
| print_data_map (d : Dict.dict (Dict.dict (Dict.dict str)))
| st_set_page_config
| st_title
| st_warning_no_data
| st_header
| st_selectbox (label : string) (options : list str) (chosen : option str)
| st_markdown (text : string)
| st_caption (what : string) (found : bool)
| st_error_missing (what : string)
| st_error_exn (where_ : string) (e : exn)
| st_subheader (text : string) (arg : option str)
| st_metric (label : string) (value : num)
| st_bar_chart (critical high medium low : num)
| st_write (label : string) (value : num)
| st_dataframe (cols : list str) (body : list row).

(** The viewer script: what was rendered so far, and a value or an
    exception. *)
Definition M (A : Type) : Type := Script ui A.

(** ** dashboard.py: artifact discovery *)

Definition DATA_FOLDER : str := lit "outputs/risk_score_analysis".

Definition truthy (s : option str) : bool :=
  match s with
  | Some (_ :: _) => true
  | _ => false
  end.

(** [os.path.join] on POSIX: an absolute second part stands alone;
    otherwise the parts are joined with one slash. *)
Definition slash : char := 47.

Definition path_join (a b : str) : str :=
  match b with
  | c :: _ =>
      if N.eqb c slash then b
      else match last a with
           | None => b
           | Some d => if N.eqb d slash then a ++ b else a ++ slash :: b
           end
  | [] =>
      match last a with
      | None => []
      | Some d => if N.eqb d slash then a else a ++ [slash]
      end
  end.

Definition data_map := Dict.dict (Dict.dict (Dict.dict str)).

(** One turn of the loop over the directory listing.  The three groups of
    the pattern take part in a match together, so the file type is a string
    whenever the token and the date are. *)
Definition add_file (folder_path : str) (dm : data_map) (f : str) : data_map :=
  match parse_filename f with
  | (token, date_str, ftype) =>
      if truthy token && truthy date_str then
        match token, date_str, ftype with
        | Some tok, Some date, Some ty =>
            let by_date := default [] (Dict.get dm tok) in
            let files := default [] (Dict.get by_date date) in
            let full_path := path_join folder_path f in
            Dict.set dm tok (Dict.set by_date date (Dict.set files ty full_path))
        | _, _, _ => dm
        end
      else dm
  end.

Definition get_available_data (w : world) (folder_path : str) : M data_map :=
  if negb (path_exists w folder_path) then ret []
  else
    files <- lift (of_io (listdir w folder_path)) ;;
    let dm := fold_left (add_file folder_path) files [] in
    emit (print_data_map dm) ;;;
    ret dm.

(** ** dashboard.py: the report parser *)

Abbreviation metrics := (gmap string num).

Definition default_metrics : metrics :=
  <["dist_low" := PyInt 0]> (
  <["dist_medium" := PyInt 0]> (
  <["dist_high" := PyInt 0]> (
  <["dist_critical" := PyInt 0]> (
  <["wash_trading_risk" := PyFloat 0 1]> (
  <["bot_risk" := PyFloat 0 1]> (
  <["concentration_risk" := PyFloat 0 1]> (
  <["global_risk" := PyFloat 0 1]> (
  <["global_health" := PyFloat 0 1]> ∅)))))))).

(** The value of a run of decimal digits. *)
Fixpoint digits_value (acc : N) (s : str) : option N :=
  match s with
  | [] => Some acc
  | c :: s' =>
      match digit_value c with
      | Some d => digits_value (10 * acc + d) s'
      | None => None
      end
  end.

(** [text.partition('.')], without the separator. *)
Fixpoint split_dot (text : str) : str * option str :=
  match text with
  | [] => ([], None)
  | c :: text' =>
      if N.eqb c 46 then ([], Some text')
      else let '(whole, frac) := split_dot text' in (c :: whole, frac)
  end.

(** [float(text)] for a text of digits and dots: one dot at most, one
    digit at least.  The float is kept as the decimal it was read from:
    [PyFloat m k] stands for the binary64 nearest to [m / 10^k]. *)
Definition py_float (text : str) : result num :=
  let '(whole, frac) := split_dot text in
  let frac := default [] frac in
  match whole ++ frac with
  | [] => Raise (ValueError "could not convert string to float")
  | _ :: _ =>
      match digits_value 0 (whole ++ frac) with
      | Some m => Ret (PyFloat m (length frac))
      | None => Raise (ValueError "could not convert string to float")
      end
  end.

(** [int(text)] for a run of digits; longer runs than the interpreter's
    limit are refused. *)
Definition py_int (limit : option nat) (text : str) : result num :=
  match digits_value 0 text with
  | Some n =>
      match text, limit with
      | [], _ => Raise (ValueError "invalid literal for int()")
      | _, Some l =>
          if Nat.ltb l (length text)
          then Raise (ValueError "exceeds the limit for integer string conversion")
          else Ret (PyInt n)
      | _, None => Ret (PyInt n)
      end
  | None => Raise (ValueError "invalid literal for int()")
  end.

(** [LABEL:\s*([\d\.]+)] *)
Definition score_re (label : string) : regex :=
  Lit (lit label) >> Lit (lit ":") >> star CSpace >>
  Group 1 (plus (CUnion CDigit (CChar 46))).

(** [LEVEL\s*:\s*(\d+)\s*wallets] *)
Definition count_re (level : string) : regex :=
  Lit (lit level) >> star CSpace >> Lit (lit ":") >> star CSpace >>
  Group 1 (plus CDigit) >> star CSpace >> Lit (lit "wallets").

(** The body of the [try] block runs over the dict it fills in place:
    what was stored before an exception stays stored. *)
Definition P (A : Type) : Type := metrics -> result A * metrics.

Definition pbind {A B} (c : P A) (k : A -> P B) : P B :=
  fun m => match c m with
           | (Ret a, m') => k a m'
           | (Raise e, m') => (Raise e, m')
           end.

Definition pret {A} (a : A) : P A := fun m => (Ret a, m).

Notation "c >>> k" := (pbind c (fun _ => k)) (at level 100, right associativity).

(** [x_match = re.search(pattern, content)]
    [if x_match: metrics[key] = conv(x_match.group(1))] *)
Definition extract (pattern : regex) (key : string) (conv : str -> result num)
           (content : str) : P unit :=
  fun m =>
    match search pattern content with
    | None => (Ret tt, m)
    | Some x_match =>
        match group x_match 1 with
        | None => (Raise (TypeError "argument must be a string or a number"), m)
        | Some text =>
            match conv text with
            | Ret v => (Ret tt, <[key := v]> m)
            | Raise e => (Raise e, m)
            end
        end
    end.

Definition open_read (w : world) (file_path : str) : result str :=
  match file_at w file_path with
  | Absent => Raise (IOError FileNotFoundError)
  | Unreadable => Raise (IOError PermissionError)
  | Undecodable => Raise (IOError UnicodeDecodeError)
  | Text content => Ret content
  end.

Definition parse_body (w : world) (file_path : str) : P unit :=
  fun m =>
    match open_read w file_path with
    | Raise e => (Raise e, m)
    | Ret content =>
        (extract (score_re "TOKEN GLOBAL HEALTH SCORE") "global_health" py_float content >>>
         extract (score_re "Global Risk Score") "global_risk" py_float content >>>
         extract (score_re "Concentration Risk") "concentration_risk" py_float content >>>
         extract (score_re "Bot Activity Risk") "bot_risk" py_float content >>>
         extract (score_re "Wash Trading Risk") "wash_trading_risk" py_float content >>>
         extract (count_re "CRITICAL") "dist_critical" (py_int (int_max_str_digits w)) content >>>
         extract (count_re "HIGH") "dist_high" (py_int (int_max_str_digits w)) content >>>
         extract (count_re "MEDIUM") "dist_medium" (py_int (int_max_str_digits w)) content >>>
         extract (count_re "LOW") "dist_low" (py_int (int_max_str_digits w)) content) m
    end.

Definition parse_risk_report (w : world) (file_path : str) : M metrics :=
  match parse_body w file_path default_metrics with
  | (Ret _, m) => ret m
  | (Raise e, m) =>
      if is_Exception e
      then emit (st_error_exn "Error parsing text report" e) ;;; ret m
      else raise e
  end.

(** ** dashboard.py: the table loader *)

(** [pd.to_numeric(column, errors='coerce')], cell by cell. *)
Definition to_numeric_coerce (w : world) (c : cell) : cell :=
  match c with
  | CFloat f => CFloat f
  | CText s => CFloat (default nan (numeric_text w s))
  end.

(** [df[name] = to_numeric(df[name])] *)
Definition coerce_column (w : world) (name : str) (df : dataframe) : result dataframe :=
  match index_of name (columns df) with
  | None => Raise (KeyError (KStr name))
  | Some i =>
      Ret {| columns := columns df;
             rows := List.map (fun r => alter (to_numeric_coerce w) i r) (rows df) |}
  end.

Definition load_csv_data (w : world) (file_path : str) : M dataframe :=
  try_except
    (df <- lift (of_io (read_csv w file_path)) ;;
     lift (coerce_column w (lit "risk_score") df))
    (fun e => emit (st_error_exn "Error loading CSV" e) ;;; ret empty_frame).

(** ** dashboard.py: the script *)

(** The positions the user picked in the two select boxes; position 0 is
    what the box shows before any choice. *)
Record picks := { pick_token : nat; pick_date : nat }.

(** [st.selectbox]: the option at the chosen position, the first option
    otherwise, [None] when there is no option. *)
Definition selectbox (options : list str) (i : nat) : option str :=
  match options !! i with
  | Some o => Some o
  | None => head options
  end.

Definition getitem_opt {V} (d : Dict.dict V) (k : option str) : result V :=
  match k with
  | Some s => Dict.getitem d s
  | None => Raise (KeyError KNone)
  end.

(** [dates.sort(reverse=True)] *)
Fixpoint insert_desc (x : str) (l : list str) : list str :=
  match l with
  | [] => [x]
  | y :: l' => if str_ltb x y then y :: insert_desc x l' else x :: l
  end.

Definition sort_reverse (l : list str) : list str := fold_right insert_desc [] l.

Definition metric_item (m : metrics) (key : string) : result num :=
  match m !! key with
  | Some v => Ret v
  | None => Raise (KeyError (KStr (lit key)))
  end.

Definition cols_to_show : list str :=
  [lit "wallet"; lit "risk_score"; lit "risk_level"; lit "bot_classification";
   lit "wash_trading_flags"].

(** [csv_df.sort_values(by='risk_score', ascending=False).head(10)] *)
Definition top_10 (w : world) (csv_df : dataframe) : result dataframe :=
  match index_of (lit "risk_score") (columns csv_df) with
  | None => Raise (KeyError (KStr (lit "risk_score")))
  | Some i =>
      Ret {| columns := columns csv_df;
             rows := take 10 (quicksort_desc w (score_at i) (rows csv_df)) |}
  end.

(** [frame[cols]] for columns known to be present. *)
Definition select_columns (cols : list str) (df : dataframe) : list row :=
  List.map (fun r =>
    omap (fun c => match index_of c (columns df) with
                   | Some i => r !! i
                   | None => None
                   end) cols) (rows df).

(** Part 2 of the script: the metric cards. *)
Definition render_metrics (selected_token : option str) (report_metrics : metrics)
  : M unit :=
  emit (st_subheader "Analysis for" selected_token) ;;;
  health <- lift (metric_item report_metrics "global_health") ;;
  emit (st_metric "Token Global Health Score (Higher is Better)" health) ;;;
  risk <- lift (metric_item report_metrics "global_risk") ;;
  emit (st_metric "Global Risk Score (Lower is Better)" risk) ;;;
  emit (st_markdown "---") ;;;
  emit (st_markdown "Risk Breakdown") ;;;
  conc <- lift (metric_item report_metrics "concentration_risk") ;;
  emit (st_metric "Concentration Risk" conc) ;;;
  bot <- lift (metric_item report_metrics "bot_risk") ;;
  emit (st_metric "Bot Activity Risk" bot) ;;;
  wash <- lift (metric_item report_metrics "wash_trading_risk") ;;
  emit (st_metric "Wash Trading Risk" wash) ;;;
  emit (st_markdown "---") ;;;
  emit (st_markdown "Risk Distribution") ;;;
  crit <- lift (metric_item report_metrics "dist_critical") ;;
  high <- lift (metric_item report_metrics "dist_high") ;;
  med <- lift (metric_item report_metrics "dist_medium") ;;
  low <- lift (metric_item report_metrics "dist_low") ;;
  emit (st_bar_chart crit high med low) ;;;
  emit (st_write "Critical" crit) ;;;
  emit (st_write "High" high) ;;;
  emit (st_write "Medium" med) ;;;
  emit (st_write "Low" low).

(** Part 3 of the script: the table of the ten riskiest wallets. *)
Definition render_top_10 (w : world) (csv_df : dataframe) : M unit :=
  emit (st_markdown "---") ;;;
  emit (st_subheader "Top 10 Highest Risk Wallets" None) ;;;
  let available_cols :=
    List.filter (fun c => bool_decide (is_Some (index_of c (columns csv_df))))
                cols_to_show in
  top <- lift (top_10 w csv_df) ;;
  emit (st_dataframe available_cols (select_columns available_cols top)).

(** The whole script, from the title to the table. *)
Definition dashboard (w : world) (user : picks) : M unit :=
  emit st_set_page_config ;;;
  emit st_title ;;;
  data_tree <- get_available_data w DATA_FOLDER ;;
  let tokens := Dict.keys data_tree in
  (match tokens with
   | [] => emit st_warning_no_data ;;; raise StopException
   | _ :: _ => ret tt
   end) ;;;
  emit st_header ;;;
  let selected_token := selectbox tokens (pick_token user) in
  emit (st_selectbox "Select Token" tokens selected_token) ;;;
  by_date <- lift (getitem_opt data_tree selected_token) ;;
  let dates := sort_reverse (Dict.keys by_date) in
  let selected_date := selectbox dates (pick_date user) in
  emit (st_selectbox "Select Analysis Date" dates selected_date) ;;;
  files <- lift (getitem_opt by_date selected_date) ;;
  emit (st_markdown "---") ;;;
  emit (st_markdown "Files Detected") ;;;
  report <- lift (Dict.getitem files (lit "report")) ;;
  emit (st_caption "Report" (truthy (Some report))) ;;;
  analysis <- lift (Dict.getitem files (lit "analysis")) ;;
  emit (st_caption "Data" (truthy (Some analysis))) ;;;
  report <- lift (Dict.getitem files (lit "report")) ;;
  report_metrics <-
    (if truthy (Some report) then parse_risk_report w report
     else emit (st_error_missing "Text report file missing for this selection.") ;;;
          ret ∅) ;;
  analysis <- lift (Dict.getitem files (lit "analysis")) ;;
  csv_df <-
    (if truthy (Some analysis) then load_csv_data w analysis
     else emit (st_error_missing "CSV analysis file missing for this selection.") ;;;
          ret empty_frame) ;;
  (if bool_decide (report_metrics = ∅) then ret tt
   else render_metrics selected_token report_metrics) ;;;
  (if df_empty csv_df then ret tt else render_top_10 w csv_df).

(** ** full_risk_score_analysis.py: the pipeline *)

Record config := {
  validate : bool;
  CHAIN : str;
  ARKHAM_API_KEY : str;
  TOKENS : list str;
  TIME_WINDOW : Z;
  QUICK_MODE : bool;
  OUTPUT_DIR : str
}.

(** [user_flows]: [None], a frame without rows, or a frame with rows. *)
Inductive flows :=
| NoFlows
| EmptyFlows
| SomeFlows.

(** What each call into the partner modules does during one turn of the
    loop, should the turn reach it: it returns, or it raises. *)
Record turn := {
  fetch_token_holders : result bool;
  HolderAnalyzer : result unit;
  run_analysis : result unit;
  fetch_and_process_token : result flows;
  to_csv : result unit;
  TransactionBasedWashTradingDetector : result unit;
  extract_user_flows : result unit;
  run_all_analyses : result unit;
  BotDetector : result unit;
  classify_wallets : option nat -> result unit;
  CombinedAnalyzer : result unit;
  create_combined_analysis : result unit;
  save_results : result unit
}.

Record partners := {
  LiveDataFetcher : result unit;
  turn_of : nat -> turn
}.

Inductive stage :=
| holder_fetch
| holder_analysis
| transfer_fetch
| persist_flows
| wash_trading
| bot_detection
| combined_scoring.

(** The pipeline's output: the lines it prints, and a mark for every
    stage it enters for a token. *)
Inductive event :=
| print_start (chain : str)
| print_analyzing (token : str)
| print_holder_failed (e : exn)
| print_skip_holder
| print_skip_transfer
| print_bot_failed (e : exn)
| print_combined_failed (e : exn)
| print_complete (output_dir : str)
| enter (s : stage) (token : str).

Definition stage_call {A} (s : stage) (token : str) (r : result A) : Script event A :=
  ([enter s token], r).

(** The body of [for token_address in config.TOKENS]. *)
Definition analyze_token (cfg : config) (t : turn) (token_address : str)
  : Script event unit :=
  emit (print_analyzing token_address) ;;;
  holders_data <- stage_call holder_fetch token_address (fetch_token_holders t) ;;
  (if holders_data : bool then
     try_except
       (stage_call holder_analysis token_address (HolderAnalyzer t) ;;;
        lift (run_analysis t))
       (fun e => emit (print_holder_failed e))
   else emit print_skip_holder) ;;;
  user_flows <- stage_call transfer_fetch token_address (fetch_and_process_token t) ;;
  match user_flows with
  | NoFlows | EmptyFlows => emit print_skip_transfer
  | SomeFlows =>
      stage_call persist_flows token_address (to_csv t) ;;;
      stage_call wash_trading token_address (TransactionBasedWashTradingDetector t) ;;;
      lift (extract_user_flows t) ;;;
      lift (run_all_analyses t) ;;;
      go_on <-
        try_except
          (stage_call bot_detection token_address (BotDetector t) ;;;
           let sample := if QUICK_MODE cfg then Some 50%nat else None in
           lift (classify_wallets t sample) ;;;
           ret true)
          (fun e => emit (print_bot_failed e) ;;; ret false) ;;
      if go_on : bool then
        try_except
          (stage_call combined_scoring token_address (CombinedAnalyzer t) ;;;
           lift (create_combined_analysis t) ;;;
           lift (save_results t))
          (fun e => emit (print_combined_failed e))
      else ret tt
  end.

(** The loop, from its [i]-th turn on. *)
Fixpoint token_loop (cfg : config) (p : partners) (i : nat) (tokens : list str)
  : Script event unit :=
  match tokens with
  | [] => ret tt
  | token_address :: rest =>
      analyze_token cfg (turn_of p i) token_address ;;;
      token_loop cfg p (S i) rest
  end.

Definition main (cfg : config) (p : partners) : Script event unit :=
  (if negb (validate cfg) then raise (SystemExit 1) else ret tt) ;;;
  emit (print_start (CHAIN cfg)) ;;;
  lift (LiveDataFetcher p) ;;;
  token_loop cfg p 0 (TOKENS cfg) ;;;
  emit (print_complete (OUTPUT_DIR cfg)).

(** * The vocabulary of the properties

    Definitions that the statements below are written with; none of them
    is part of the two scripts. *)

(** ** Matches *)

Definition hi_ok (hi : option nat) (n : nat) : Prop :=
  match hi with Some h => (n <= h)%nat | None => True end.

(** [matches r m g g']: the text [m] is in the language of [r], and
    matching it turns the groups [g] into [g']. *)
Fixpoint matches (r : regex) (m : str) (g g' : caps) : Prop :=
  match r with
  | Lit l => m = l /\ g' = g
  | Rep cs lo hi =>
      Forall (fun c => cset_mem cs c = true) m /\
      (lo <= length m)%nat /\ hi_ok hi (length m) /\ g' = g
  | Seq r1 r2 =>
      exists m1 m2 g1,
        m = m1 ++ m2 /\ matches r1 m1 g g1 /\ matches r2 m2 g1 g'
  | Alt r1 r2 => matches r1 m g g' \/ matches r2 m g g'
  | Group n r1 => exists g1, matches r1 m g g1 /\ g' = <[n := m]> g1
  end.

Definition is_kind (k : str) : Prop := k = lit "analysis" \/ k = lit "report".
Definition is_ext (e : str) : Prop := e = lit "csv" \/ e = lit "txt".
Definition digits (n : nat) (d : str) : Prop :=
  length d = n /\ Forall (fun c => is_digit c = true) d.
(** What [.+] matches: at least one character, none of them a newline. *)
Definition dot_plus (t : str) : Prop :=
  t <> [] /\ Forall (fun c => c <> newline) t.

(** [_risk_<kind>_<d8>_<d6>.<ext>] *)
Definition artifact_tail (kind d8 d6 ext : str) : str :=
  lit "_risk_" ++ kind ++ lit "_" ++ d8 ++ lit "_" ++ d6 ++ lit "." ++ ext.

(** The pattern after its first group. *)
Definition tail_re : regex :=
  Lit (lit "_risk_") >>
  Group 2 (Alt (Lit (lit "analysis")) (Lit (lit "report"))) >> Lit (lit "_") >>
  Group 3 (exactly 8 CDigit >> Lit (lit "_") >> exactly 6 CDigit) >>
  Lit (lit ".") >> Group 4 (Alt (Lit (lit "csv")) (Lit (lit "txt"))).

Definition tail_groups (kind d8 d6 ext : str) (g : caps) : caps :=
  <[4%nat := ext]> (<[3%nat := d8 ++ lit "_" ++ d6]> (<[2%nat := kind]> g)).

Definition name_groups (tok kind d8 d6 ext : str) : caps :=
  <[O := tok ++ artifact_tail kind d8 d6 ext]>
    (tail_groups kind d8 d6 ext (<[1%nat := tok]> ∅)).

(** The continuation of [filename_re] after its first group. *)
Definition after_token (m s' : str) : option caps :=
  rmatch tail_re s' (<[1%nat := m]> ∅)
         (fun m2 _ g2 => Some (<[O := m ++ m2]> g2)).

(** ** Discovery *)

(** The key under which a directory entry is filed, if it is filed. *)
Definition key_of (f : str) : option (str * str * str) :=
  match parse_filename f with
  | (Some tok, Some date, Some ty) =>
      if truthy (Some tok) && truthy (Some date) then Some (tok, date, ty) else None
  | _ => None
  end.

(** [dm[tok][date][ty]], when all three keys are there. *)
Definition lookup3 (dm : data_map) (tok date ty : str) : option str :=
  match Dict.get dm tok with
  | Some by_date =>
      match Dict.get by_date date with
      | Some files => Dict.get files ty
      | None => None
      end
  | None => None
  end.

Definition discover (folder : str) (files : list str) : data_map :=
  fold_left (add_file folder) files [].

(** ** Reports *)

(** The nine searches of the [try] block, in order. *)
Definition steps (w : world) : list (regex * string * (str -> result num)) :=
  [ (score_re "TOKEN GLOBAL HEALTH SCORE", "global_health", py_float);
    (score_re "Global Risk Score", "global_risk", py_float);
    (score_re "Concentration Risk", "concentration_risk", py_float);
    (score_re "Bot Activity Risk", "bot_risk", py_float);
    (score_re "Wash Trading Risk", "wash_trading_risk", py_float);
    (count_re "CRITICAL", "dist_critical", py_int (int_max_str_digits w));
    (count_re "HIGH", "dist_high", py_int (int_max_str_digits w));
    (count_re "MEDIUM", "dist_medium", py_int (int_max_str_digits w));
    (count_re "LOW", "dist_low", py_int (int_max_str_digits w)) ].

Fixpoint run_steps (l : list (regex * string * (str -> result num)))
         (content : str) : P unit :=
  match l with
  | [] => pret tt
  | (p, k, c) :: rest =>
      match rest with
      | [] => extract p k c content
      | _ :: _ => (extract p k c content >>> run_steps rest content)
      end
  end.

(** The type of the value each key holds: [true] for a float, [false]
    for a count. *)
Definition kind_of_key (k : string) : option bool :=
  if decide ("dist_low" = k) then Some false
  else if decide ("dist_medium" = k) then Some false
  else if decide ("dist_high" = k) then Some false
  else if decide ("dist_critical" = k) then Some false
  else if decide ("wash_trading_risk" = k) then Some true
  else if decide ("bot_risk" = k) then Some true
  else if decide ("concentration_risk" = k) then Some true
  else if decide ("global_risk" = k) then Some true
  else if decide ("global_health" = k) then Some true
  else None.

Definition same_kind (b : bool) (v : num) : Prop :=
  match b, v with
  | true, PyFloat _ _ => True
  | false, PyInt _ => True
  | _, _ => False
  end.

(** The dict holds the nine keys and no other, each with a number of its
    type. *)
Definition well_kinded (m : metrics) : Prop :=
  forall k, match kind_of_key k with
            | Some b => exists v, m !! k = Some v /\ same_kind b v
            | None => m !! k = None
            end.

Definition raises_Exception_only {A} (r : result A) : Prop :=
  match r with
  | Ret _ => True
  | Raise e => is_Exception e = true
  end.

Definition step_ok (st : regex * string * (str -> result num)) : Prop :=
  let '(_, k, c) := st in
  exists b, kind_of_key k = Some b /\
            forall text, match c text with
                         | Ret v => same_kind b v
                         | Raise e => is_Exception e = true
                         end.

(** The lines of a report, as the patterns read them. *)
Definition score_line (label : string) (m : str) : Prop :=
  exists sp value,
    m = lit label ++ lit ":" ++ sp ++ value /\
    Forall (fun c => is_space c = true) sp /\
    value <> [] /\
    Forall (fun c => is_digit c = true \/ c = 46) value.

Definition count_line (level : string) (m : str) : Prop :=
  exists sp1 sp2 value sp3,
    m = lit level ++ sp1 ++ lit ":" ++ sp2 ++ value ++ sp3 ++ lit "wallets" /\
    Forall (fun c => is_space c = true) (sp1 ++ sp2 ++ sp3) /\
    value <> [] /\
    Forall (fun c => is_digit c = true) value.

(** Some part of the text is such a line. *)
Definition occurs (line : str -> Prop) (content : str) : Prop :=
  exists pre m post, content = pre ++ m ++ post /\ line m.

(** The reading of each key: its line, and the value it defaults to. *)
Definition report_lines : list (string * (str -> Prop) * num) :=
  [ ("global_health", score_line "TOKEN GLOBAL HEALTH SCORE", PyFloat 0 1);
    ("global_risk", score_line "Global Risk Score", PyFloat 0 1);
    ("concentration_risk", score_line "Concentration Risk", PyFloat 0 1);
    ("bot_risk", score_line "Bot Activity Risk", PyFloat 0 1);
    ("wash_trading_risk", score_line "Wash Trading Risk", PyFloat 0 1);
    ("dist_critical", count_line "CRITICAL", PyInt 0);
    ("dist_high", count_line "HIGH", PyInt 0);
    ("dist_medium", count_line "MEDIUM", PyInt 0);
    ("dist_low", count_line "LOW", PyInt 0) ].

(** ** Tables *)

Definition risk_score : str := lit "risk_score".


(** The frame with its risk_score column made numeric. *)
Definition coerced (w : world) (i : nat) (df : dataframe) : dataframe :=
  {| columns := columns df;
     rows := List.map (fun r => alter (to_numeric_coerce w) i r) (rows df) |}.

(** [a] comes before [b] in [l]. *)
Definition precedes {A} (a b : A) (l : list A) : Prop :=
  exists l1 l2 l3, l = l1 ++ a :: l2 ++ b :: l3.

(** Rows with equal scores are in the output in the order of the input. *)
Definition ties_in_table_order (key : row -> float) (input output : list row) : Prop :=
  forall a b, PrimFloat.eqb (key a) (key b) = true ->
              precedes a b output -> precedes a b input.

(** ** The viewer *)

(** A script that renders neither of the two "missing" messages. *)
Definition quiet {A} (c : M A) : Prop :=
  forall msg, ~ In (st_error_missing msg) (fst c).

(** ** The pipeline *)

(** Stages 1 and 2 of a turn: the holder snapshot and its analysis. *)
Definition holder_stages (t : turn) (token_address : str) : Script event unit :=
  emit (print_analyzing token_address) ;;;
  holders_data <- stage_call holder_fetch token_address (fetch_token_holders t) ;;
  if holders_data : bool then
    try_except
      (stage_call holder_analysis token_address (HolderAnalyzer t) ;;;
       lift (run_analysis t))
      (fun e => emit (print_holder_failed e))
  else emit print_skip_holder.

(** Stages 6 and 7: bot detection and combined scoring. *)
Definition guarded_stages (cfg : config) (t : turn) (token_address : str)
  : Script event unit :=
  go_on <-
    try_except
      (stage_call bot_detection token_address (BotDetector t) ;;;
       let sample := if QUICK_MODE cfg then Some 50%nat else None in
       lift (classify_wallets t sample) ;;;
       ret true)
      (fun e => emit (print_bot_failed e) ;;; ret false) ;;
  if go_on : bool then
    try_except
      (stage_call combined_scoring token_address (CombinedAnalyzer t) ;;;
       lift (create_combined_analysis t) ;;;
       lift (save_results t))
      (fun e => emit (print_combined_failed e))
  else ret tt.

(** Stage 5: the three calls into the wash-trading detector. *)
Definition wash_stage (t : turn) (token_address : str) : Script event unit :=
  stage_call wash_trading token_address (TransactionBasedWashTradingDetector t) ;;;
  lift (extract_user_flows t) ;;;
  lift (run_all_analyses t).

(** Stage 3 and what follows it. *)
Definition later_stages (cfg : config) (t : turn) (token_address : str)
  : Script event unit :=
  user_flows <- stage_call transfer_fetch token_address (fetch_and_process_token t) ;;
  match user_flows with
  | NoFlows | EmptyFlows => emit print_skip_transfer
  | SomeFlows =>
      stage_call persist_flows token_address (to_csv t) ;;;
      wash_stage t token_address ;;;
      guarded_stages cfg t token_address
  end.

(** The tokens whose turn was started, read off the output. *)
Fixpoint analysed (out : list event) : list str :=
  match out with
  | [] => []
  | print_analyzing tok :: out' => tok :: analysed out'
  | _ :: out' => analysed out'
  end.

(** The holder analyzer raises [e]: in its constructor, or in its run. *)
Definition holder_raises (t : turn) (e : exn) : Prop :=
  HolderAnalyzer t = Raise e \/
  (HolderAnalyzer t = Ret tt /\ run_analysis t = Raise e).

(** The wash-trading detector raises [e] in one of its three calls. *)
Definition wash_raises (t : turn) (e : exn) : Prop :=
  TransactionBasedWashTradingDetector t = Raise e \/
  (TransactionBasedWashTradingDetector t = Ret tt /\ extract_user_flows t = Raise e) \/
  (TransactionBasedWashTradingDetector t = Ret tt /\ extract_user_flows t = Ret tt /\
   run_all_analyses t = Raise e).

(** ** Metric keys *)

Definition score_keys : list string :=
  ["global_health"; "global_risk"; "concentration_risk"; "bot_risk";
   "wash_trading_risk"].

Definition count_keys : list string :=
  ["dist_critical"; "dist_high"; "dist_medium"; "dist_low"].

(** ** The claim on ties *)

(** The claim on ties, as the design document words it: whatever order the
    sort returns within its contract, rows with equal scores are among the
    top ten in the order of the table. *)
Definition top_10_is_stable : Prop :=
  forall (w : world) (df top : dataframe) (i : nat),
    index_of risk_score (columns df) = Some i ->
    pandas_sorted_desc (score_at i) (rows df)
                       (quicksort_desc w (score_at i) (rows df)) ->
    top_10 w df = Ret top ->
    ties_in_table_order (score_at i) (rows df) (rows top).

(** * Sample inputs *)

Definition listing_world (files : list str) : world :=
  {| path_exists := fun _ => true;
     listdir := fun _ => IoOk files;
     file_at := fun _ => Absent;
     read_csv := fun _ => IoFail FileNotFoundError;
     numeric_text := fun _ => None;
     quicksort_desc := fun _ rows => rows;
     int_max_str_digits := None |}.

(** The same listing, with every file readable and empty. *)
Definition listing_world_later (files : list str) : world :=
  {| path_exists := fun _ => true;
     listdir := fun _ => IoOk files;
     file_at := fun _ => Text [];
     read_csv := fun _ => IoOk empty_frame;
     numeric_text := fun _ => None;
     quicksort_desc := fun _ rows => rows;
     int_max_str_digits := Some 4300%nat |}.

Definition pair_listing : list str :=
  [ lit "ABC_risk_analysis_20240101_120000.csv";
    lit "ABC_risk_report_20240101_120000.txt";
    lit "notes.txt" ].

Definition report_without_bot_line : str :=
  lit "TOKEN GLOBAL HEALTH SCORE: 72.5/100
Global Risk Score: 27.5
Concentration Risk: 10.0
Wash Trading Risk: 33.0
CRITICAL : 3 wallets
HIGH : 12 wallets
MEDIUM : 40 wallets
LOW : 7 wallets
".

Definition report_world (content : str) : world :=
  {| path_exists := fun _ => true;
     listdir := fun _ => IoOk [];
     file_at := fun _ => Text content;
     read_csv := fun _ => IoFail FileNotFoundError;
     numeric_text := fun _ => None;
     quicksort_desc := fun _ rows => rows;
     int_max_str_digits := Some 4300%nat |}.

Definition default_picks : picks := {| pick_token := 0; pick_date := 0 |}.

Definition wallet_row (wallet : string) (score : float) : row :=
  [CText (lit wallet); CFloat score].

(** Twenty wallets with scores 99, 95, 95 and then 80 for all the
    others. *)
Definition twenty_wallets : dataframe :=
  {| columns := [lit "wallet"; lit "risk_score"];
     rows := [ wallet_row "w01" 99; wallet_row "w02" 95; wallet_row "w03" 95;
               wallet_row "w04" 80; wallet_row "w05" 80; wallet_row "w06" 80;
               wallet_row "w07" 80; wallet_row "w08" 80; wallet_row "w09" 80;
               wallet_row "w10" 80; wallet_row "w11" 80; wallet_row "w12" 80;
               wallet_row "w13" 80; wallet_row "w14" 80; wallet_row "w15" 80;
               wallet_row "w16" 80; wallet_row "w17" 80; wallet_row "w18" 80;
               wallet_row "w19" 80; wallet_row "w20" 80 ] |}.

(** The rows at the given positions, in that order. *)
Definition rows_at (positions : list nat) (rows : list row) : list row :=
  omap (fun k => rows !! k) positions.

(** A sort that exchanges rows with equal scores the way a quicksort that
    partitions around a median of three does on twenty rows: on
    [twenty_wallets] the result is descending, with the two 95-score rows
    and the 80-score rows out of their table order. *)
Definition exchanges_ties : world :=
  {| path_exists := fun _ => true;
     listdir := fun _ => IoOk [];
     file_at := fun _ => Absent;
     read_csv := fun _ => IoOk twenty_wallets;
     numeric_text := fun _ => None;
     quicksort_desc := fun _ rows =>
       rows_at [0; 2; 1; 11; 18; 17; 16; 15; 14; 13;
                12; 10; 9; 8; 7; 6; 5; 4; 3; 19]%nat rows;
     int_max_str_digits := None |}.





Definition token_A : str := lit "0xAAAA".
Definition token_B : str := lit "0xBBBB".
Definition token_C : str := lit "0xCCCC".

Definition demo_config : config :=
  {| validate := true;
     CHAIN := lit "ethereum";
     ARKHAM_API_KEY := lit "key";
     TOKENS := [token_A; token_B; token_C];
     TIME_WINDOW := 24;
     QUICK_MODE := true;
     OUTPUT_DIR := lit "outputs/risk_score_analysis" |}.

(** A turn in which every call returns. *)
Definition good_turn : turn :=
  {| fetch_token_holders := Ret true;
     HolderAnalyzer := Ret tt;
     run_analysis := Ret tt;
     fetch_and_process_token := Ret SomeFlows;
     to_csv := Ret tt;
     TransactionBasedWashTradingDetector := Ret tt;
     extract_user_flows := Ret tt;
     run_all_analyses := Ret tt;
     BotDetector := Ret tt;
     classify_wallets := fun _ => Ret tt;
     CombinedAnalyzer := Ret tt;
     create_combined_analysis := Ret tt;
     save_results := Ret tt |}.

(** The detector fails in [run_all_analyses]. *)
Definition wash_fails : turn :=
  {| fetch_token_holders := Ret true;
     HolderAnalyzer := Ret tt;
     run_analysis := Ret tt;
     fetch_and_process_token := Ret SomeFlows;
     to_csv := Ret tt;
     TransactionBasedWashTradingDetector := Ret tt;
     extract_user_flows := Ret tt;
     run_all_analyses := Raise (Failure "wash trading");
     BotDetector := Ret tt;
     classify_wallets := fun _ => Ret tt;
     CombinedAnalyzer := Ret tt;
     create_combined_analysis := Ret tt;
     save_results := Ret tt |}.

Definition wash_fails_second : partners :=
  {| LiveDataFetcher := Ret tt;
     turn_of := fun i => match i with 1%nat => wash_fails | _ => good_turn end |}.

(** The holder fetch has no data for the first token. *)
Definition no_holders : turn :=
  {| fetch_token_holders := Ret false;
     HolderAnalyzer := Ret tt;
     run_analysis := Ret tt;
     fetch_and_process_token := Ret SomeFlows;
     to_csv := Ret tt;
     TransactionBasedWashTradingDetector := Ret tt;
     extract_user_flows := Ret tt;
     run_all_analyses := Ret tt;
     BotDetector := Ret tt;
     classify_wallets := fun _ => Ret tt;
     CombinedAnalyzer := Ret tt;
     create_combined_analysis := Ret tt;
     save_results := Ret tt |}.

Definition no_holders_first : partners :=
  {| LiveDataFetcher := Ret tt;
     turn_of := fun i => match i with O => no_holders | _ => good_turn end |}.

(** * Lemmas *)

(** ** What a successful match says about the text *)

Module ReFacts.

Lemma strip_prefix_app (p s : str) : strip_prefix p (p ++ s) = Some s.
Proof.
  induction p as [|a p IH]; simpl; [reflexivity|].
  rewrite N.eqb_refl. exact IH.
Qed.

Lemma strip_prefix_Some (p : str) : forall s s',
  strip_prefix p s = Some s' -> s = p ++ s'.
Proof.
  induction p as [|a p IH]; intros s s' H; simpl in H.
  - destruct s; inversion H; reflexivity.
  - destruct s as [|b s]; [discriminate|].
    destruct (N.eqb_spec a b) as [->|]; [|discriminate].
    simpl. f_equal. apply IH. exact H.
Qed.

Lemma contains_app (p : str) : forall a b, contains p (a ++ p ++ b) = true.
Proof.
  induction a as [|c a IH]; intros b.
  - simpl app. destruct (p ++ b) eqn:E; simpl;
      rewrite <- E, strip_prefix_app; reflexivity.
  - simpl. destruct (strip_prefix p (c :: a ++ p ++ b)); [reflexivity|apply IH].
Qed.

Lemma contains_true (p : str) : forall s,
  contains p s = true -> exists a b, s = a ++ p ++ b.
Proof.
  induction s as [|c s IH]; simpl; intros H.
  - destruct (strip_prefix p []) as [l|] eqn:E; [|discriminate].
    apply strip_prefix_Some in E. exists [], l. exact E.
  - destruct (strip_prefix p (c :: s)) as [l|] eqn:E.
    + apply strip_prefix_Some in E. exists [], l. exact E.
    + destruct (IH H) as (a & b & ->). exists (c :: a), b. reflexivity.
Qed.

Section Matcher.
Context {R : Type}.

Lemma rep_sound cs : forall s lo hi (k : str -> str -> option R) x,
  rep cs lo hi s k = Some x ->
  exists m s', s = m ++ s' /\ Forall (fun c => cset_mem cs c = true) m /\
               (lo <= length m)%nat /\ hi_ok hi (length m) /\ k m s' = Some x.
Proof.
  assert (Hstop : forall lo hi s (k : str -> str -> option R) x,
             match lo with O => k [] s | S _ => None end = Some x ->
             exists m s', s = m ++ s' /\ Forall (fun c => cset_mem cs c = true) m /\
               (lo <= length m)%nat /\ hi_ok hi (length m) /\ k m s' = Some x).
  { intros lo hi s k x H. destruct lo; [|discriminate].
    exists [], s. repeat split; auto. destruct hi; simpl; lia. }
  induction s as [|c s IH]; intros lo hi k x H; simpl in H.
  - eapply Hstop; eauto.
  - destruct (cset_mem cs c && more_allowed hi) eqn:E; [|eapply Hstop; eauto].
    apply andb_true_iff in E as [Ec Eh].
    destruct (rep cs (Nat.pred lo) (dec_hi hi) s (fun m r => k (c :: m) r))
      as [y|] eqn:E1; [|eapply Hstop; eauto].
    inversion H; subst y. apply IH in E1 as (m & s' & -> & Hm & Hlo & Hhi & Hk).
    exists (c :: m), s'. repeat split; auto.
    + simpl. lia.
    + destruct hi as [[|h]|]; simpl in *; try discriminate; lia.
Qed.

Lemma rmatch_sound r : forall s g (k : str -> str -> caps -> option R) x,
  rmatch r s g k = Some x ->
  exists m s' g', s = m ++ s' /\ matches r m g g' /\ k m s' g' = Some x.
Proof.
  induction r as [l|cs lo hi|r1 IH1 r2 IH2|r1 IH1 r2 IH2|n r1 IH1];
    intros s g k x H; simpl in H.
  - destruct (strip_prefix l s) as [s'|] eqn:E; [|discriminate].
    apply strip_prefix_Some in E. exists l, s', g. simpl. auto.
  - apply rep_sound in H as (m & s' & -> & Hm & Hlo & Hhi & Hk).
    exists m, s', g. simpl. auto 10.
  - apply IH1 in H as (m1 & s1 & g1 & -> & H1 & H).
    apply IH2 in H as (m2 & s2 & g2 & -> & H2 & H).
    exists (m1 ++ m2), s2, g2. split; [apply app_assoc|].
    split; [|exact H]. simpl. exists m1, m2, g1. auto.
  - destruct (rmatch r1 s g k) as [y|] eqn:E.
    + inversion H; subst y. apply IH1 in E as (m & s' & g' & -> & H1 & Hk).
      exists m, s', g'. simpl. auto.
    + apply IH2 in H as (m & s' & g' & -> & H1 & Hk).
      exists m, s', g'. simpl. auto.
  - apply IH1 in H as (m & s' & g' & -> & H1 & Hk).
    exists m, s', (<[n := m]> g'). simpl. eauto.
Qed.

Lemma rep_complete cs : forall m s' lo hi (k : str -> str -> option R),
  Forall (fun c => cset_mem cs c = true) m ->
  (lo <= length m)%nat -> hi_ok hi (length m) ->
  is_Some (k m s') ->
  is_Some (rep cs lo hi (m ++ s') k).
Proof.
  induction m as [|c m IH]; intros s' lo hi k Hm Hlo Hhi Hk.
  - simpl in Hlo. assert (lo = O) by lia. subst lo.
    destruct s' as [|c s']; simpl; [exact Hk|].
    destruct (cset_mem cs c && more_allowed hi); [|exact Hk].
    destruct (rep cs 0 (dec_hi hi) s' (fun m r => k (c :: m) r)); [eauto|exact Hk].
  - inversion Hm as [|? ? Hc Hm']; subst.
    assert (Ha : more_allowed hi = true)
      by (destruct hi as [[|h]|]; simpl in *; auto; lia).
    assert (Hin : is_Some (rep cs (Nat.pred lo) (dec_hi hi) (m ++ s')
                             (fun m0 r => k (c :: m0) r))).
    { apply IH; auto.
      - simpl in Hlo. lia.
      - destruct hi as [h|]; simpl in *; auto; lia. }
    destruct Hin as [x Hx].
    change (is_Some
      (if cset_mem cs c && more_allowed hi
       then match rep cs (Nat.pred lo) (dec_hi hi) (m ++ s')
                    (fun m0 r => k (c :: m0) r) with
            | Some y => Some y
            | None => match lo with O => k [] (c :: m ++ s') | S _ => None end
            end
       else match lo with O => k [] (c :: m ++ s') | S _ => None end)).
    rewrite Hc, Ha, Hx. simpl. eauto.
Qed.

Lemma rmatch_complete r : forall m s' g g' (k : str -> str -> caps -> option R),
  matches r m g g' ->
  is_Some (k m s' g') ->
  is_Some (rmatch r (m ++ s') g k).
Proof.
  induction r as [l|cs lo hi|r1 IH1 r2 IH2|r1 IH1 r2 IH2|n r1 IH1];
    intros m s' g g' k Hm Hk; simpl in Hm.
  - destruct Hm as [-> ->]. simpl. rewrite strip_prefix_app. exact Hk.
  - destruct Hm as (Hc & Hlo & Hhi & ->). simpl.
    apply rep_complete; auto.
  - destruct Hm as (m1 & m2 & g1 & -> & H1 & H2). simpl.
    rewrite <- app_assoc. apply (IH1 m1 (m2 ++ s') g g1); [exact H1|].
    apply (IH2 m2 s' g1 g'); [exact H2|exact Hk].
  - simpl. destruct (rmatch r1 (m ++ s') g k) eqn:E; [eauto|].
    destruct Hm as [H1|H2].
    + assert (is_Some (rmatch r1 (m ++ s') g k)) as [x Hx] by (eapply IH1; eauto).
      congruence.
    + eapply IH2; eauto.
  - destruct Hm as (g1 & H1 & ->). simpl. eapply IH1; eauto.
Qed.

End Matcher.

End ReFacts.

Module SearchFacts.
Import ReFacts.

Lemma search_here r s g : match_here r s = Some g -> search r s = Some g.
Proof. intros H. destruct s; simpl; rewrite H; reflexivity. Qed.

Lemma search_sound r : forall s g,
  search r s = Some g ->
  exists pre m post g', s = pre ++ m ++ post /\ matches r m ∅ g' /\ g = <[O := m]> g'.
Proof.
  assert (Hhere : forall s g, match_here r s = Some g ->
            exists pre m post g', s = pre ++ m ++ post /\ matches r m ∅ g' /\
                                  g = <[O := m]> g').
  { intros s g H. apply rmatch_sound in H as (m & s' & g' & -> & Hm & Hk).
    inversion Hk. exists [], m, s', g'. auto. }
  induction s as [|c s IH]; intros g H; simpl in H.
  - destruct (match_here r []) as [y|] eqn:E; [|discriminate].
    inversion H; subst y. apply Hhere. exact E.
  - destruct (match_here r (c :: s)) as [y|] eqn:E.
    + inversion H; subst y. apply Hhere. exact E.
    + apply IH in H as (pre & m & post & g' & -> & Hm & ->).
      exists (c :: pre), m, post, g'. auto.
Qed.

Lemma search_complete r m g' : forall pre post,
  matches r m ∅ g' -> is_Some (search r (pre ++ m ++ post)).
Proof.
  intros pre post Hm.
  assert (Hhere : is_Some (match_here r (m ++ post))).
  { unfold match_here. eapply rmatch_complete; eauto. }
  induction pre as [|c pre IH].
  - destruct Hhere as [y Hy]. exists y. apply search_here. exact Hy.
  - simpl. destruct (match_here r (c :: pre ++ m ++ post)); eauto.
Qed.

(** No match anywhere when a literal the pattern needs is missing. *)
Lemma search_None_without r l s :
  (forall m g g', matches r m g g' -> contains l m = true) ->
  contains l s = false -> search r s = None.
Proof.
  intros Hr Hc. destruct (search r s) as [g|] eqn:E; [|reflexivity].
  apply search_sound in E as (pre & m & post & g' & -> & Hm & _).
  apply Hr in Hm. apply contains_true in Hm as (a & b & ->).
  replace (pre ++ (a ++ l ++ b) ++ post)
    with ((pre ++ a) ++ l ++ (b ++ post)) in Hc
    by (rewrite <- !app_assoc; reflexivity).
  rewrite contains_app in Hc. discriminate.
Qed.

(** Greedy order: with every character of [t] in the set, the split
    right after [t] is the answer as soon as it succeeds and no longer
    one does. *)
Lemma rep_first {R} cs : forall s hi (k : str -> str -> option R) x,
  (forall m r, m <> [] -> s = m ++ r -> k m r = None) ->
  k [] s = Some x ->
  rep cs 0 hi s k = Some x.
Proof.
  intros s hi k x Hlong Hk. destruct s as [|c s]; simpl; [exact Hk|].
  destruct (cset_mem cs c && more_allowed hi); [|exact Hk].
  destruct (rep cs 0 (dec_hi hi) s (fun m r => k (c :: m) r)) as [y|] eqn:E;
    [|exact Hk].
  apply rep_sound in E as (m & s' & -> & _ & _ & _ & Hy).
  rewrite Hlong in Hy; [discriminate|discriminate|reflexivity].
Qed.

Lemma rep_app {R} cs : forall t s lo (k : str -> str -> option R) x,
  Forall (fun c => cset_mem cs c = true) t ->
  rep cs (lo - length t) None s (fun m r => k (t ++ m) r) = Some x ->
  rep cs lo None (t ++ s) k = Some x.
Proof.
  induction t as [|c t IH]; intros s lo k x Ht H.
  - simpl in *. rewrite Nat.sub_0_r in H. exact H.
  - inversion Ht as [|? ? Hc Ht']; subst.
    change (rep cs lo None ((c :: t) ++ s) k) with
      (if cset_mem cs c && more_allowed None
       then match rep cs (Nat.pred lo) (dec_hi None) (t ++ s)
                    (fun m r => k (c :: m) r) with
            | Some y => Some y
            | None => match lo with O => k [] (c :: t ++ s) | S _ => None end
            end
       else match lo with O => k [] (c :: t ++ s) | S _ => None end).
    rewrite Hc. simpl andb. cbv iota. simpl dec_hi.
    rewrite (IH s (Nat.pred lo) (fun m r => k (c :: m) r) x Ht'); [reflexivity|].
    replace (Nat.pred lo - length t)%nat with (lo - length (c :: t))%nat
      by (simpl; lia).
    exact H.
Qed.

Lemma rep_greedy {R} cs t s lo (k : str -> str -> option R) x :
  Forall (fun c => cset_mem cs c = true) t ->
  (lo <= length t)%nat ->
  (forall m r, m <> [] -> s = m ++ r -> k (t ++ m) r = None) ->
  k t s = Some x ->
  rep cs lo None (t ++ s) k = Some x.
Proof.
  intros Ht Hlo Hlong Hk. apply rep_app; [exact Ht|].
  replace (lo - length t)%nat with O by lia.
  apply rep_first; [exact Hlong|]. rewrite app_nil_r. exact Hk.
Qed.

End SearchFacts.

(** ** The shape of the names the filename parser accepts *)

Module FilenameFacts.
Import ReFacts SearchFacts.

Lemma filename_re_split : filename_re = (Group 1 (plus CAny) >> tail_re).
Proof. reflexivity. Qed.

Lemma any_mem (t : str) :
  Forall (fun c => cset_mem CAny c = true) t <-> Forall (fun c => c <> newline) t.
Proof.
  apply Forall_iff. intros c. simpl.
  destruct (N.eqb_spec c newline); simpl; split; congruence.
Qed.

Lemma tail_matches_inv m g g' :
  matches tail_re m g g' ->
  exists kind d8 d6 ext,
    m = artifact_tail kind d8 d6 ext /\ is_kind kind /\ digits 8 d8 /\
    digits 6 d6 /\ is_ext ext /\ g' = tail_groups kind d8 d6 ext g.
Proof.
  unfold tail_re, exactly. cbn [matches].
  intros (m1 & m2 & g1 & -> & [-> ->] & m3 & m4 & g2 & -> & (g3 & Hk & ->) &
          m5 & m6 & g4 & -> & [-> ->] & m7 & m8 & g5 & -> & (g6 & H3 & ->) &
          m9 & m10 & g7 & -> & [-> ->] & g8 & He & ->).
  destruct H3 as (d8 & m11 & g9 & -> & (H8 & L8 & U8 & ->) &
                  m12 & d6 & g10 & -> & [-> ->] & H6 & L6 & U6 & ->).
  simpl in U8, U6.
  exists m3, d8, d6, m10.
  assert (Hg3 : g3 = g) by (destruct Hk as [[_ ->]|[_ ->]]; reflexivity).
  assert (Hg8 : g8 = <[3%nat := d8 ++ lit "_" ++ d6]> (<[2%nat := m3]> g3))
    by (destruct He as [[_ ->]|[_ ->]]; reflexivity).
  subst g3 g8. repeat split.
  - unfold artifact_tail. rewrite <- !app_assoc. reflexivity.
  - destruct Hk as [[-> _]|[-> _]]; [left|right]; reflexivity.
  - lia.
  - exact H8.
  - lia.
  - exact H6.
  - destruct He as [[-> _]|[-> _]]; [left|right]; reflexivity.
Qed.

Lemma tail_matches kind d8 d6 ext g :
  is_kind kind -> digits 8 d8 -> digits 6 d6 -> is_ext ext ->
  matches tail_re (artifact_tail kind d8 d6 ext) g (tail_groups kind d8 d6 ext g).
Proof.
  intros Hk [L8 H8] [L6 H6] He.
  unfold tail_re, exactly, artifact_tail, tail_groups. cbn [matches].
  exists (lit "_risk_"), (kind ++ lit "_" ++ d8 ++ lit "_" ++ d6 ++ lit "." ++ ext), g.
  split; [reflexivity|]. split; [auto|].
  exists kind, (lit "_" ++ d8 ++ lit "_" ++ d6 ++ lit "." ++ ext), (<[2%nat := kind]> g).
  split; [reflexivity|]. split.
  { exists g. split; [|reflexivity]. destruct Hk as [-> | ->]; auto. }
  exists (lit "_"), (d8 ++ lit "_" ++ d6 ++ lit "." ++ ext), (<[2%nat := kind]> g).
  split; [reflexivity|]. split; [auto|].
  exists (d8 ++ lit "_" ++ d6), (lit "." ++ ext),
         (<[3%nat := d8 ++ lit "_" ++ d6]> (<[2%nat := kind]> g)).
  split; [rewrite <- !app_assoc; reflexivity|]. split.
  { exists (<[2%nat := kind]> g). split; [|reflexivity].
    exists d8, (lit "_" ++ d6), (<[2%nat := kind]> g).
    split; [reflexivity|]. split.
    { repeat split; auto; simpl; lia. }
    exists (lit "_"), d6, (<[2%nat := kind]> g).
    split; [reflexivity|]. split; [auto|].
    repeat split; auto; simpl; lia. }
  exists (lit "."), ext, (<[3%nat := d8 ++ lit "_" ++ d6]> (<[2%nat := kind]> g)).
  split; [reflexivity|]. split; [auto|].
  exists (<[3%nat := d8 ++ lit "_" ++ d6]> (<[2%nat := kind]> g)).
  split; [|reflexivity]. destruct He as [-> | ->]; auto.
Qed.

End FilenameFacts.

Module FilenameParse.
Import ReFacts SearchFacts FilenameFacts.

Lemma ext_length e : is_ext e -> length e = 3%nat.
Proof. intros [-> | ->]; reflexivity. Qed.

Lemma tail_length kind d8 d6 ext :
  digits 8 d8 -> digits 6 d6 -> is_ext ext ->
  length (artifact_tail kind d8 d6 ext) = (26 + length kind)%nat.
Proof.
  intros [L8 _] [L6 _] He. unfold artifact_tail.
  rewrite !length_app, L8, L6, (ext_length _ He). simpl. lia.
Qed.

(** A name of the convention reads in one way only. *)
Lemma tail_inj k d8 d6 e s k' d8' d6' e' s' :
  is_kind k -> is_kind k' ->
  length d8 = 8%nat -> length d8' = 8%nat ->
  length d6 = 6%nat -> length d6' = 6%nat ->
  artifact_tail k d8 d6 e ++ s = artifact_tail k' d8' d6' e' ++ s' ->
  k = k' /\ d8 = d8' /\ d6 = d6'.
Proof.
  intros Hk Hk' L8 L8' L6 L6' H. unfold artifact_tail in H.
  rewrite <- !app_assoc in H.
  destruct Hk as [-> | ->], Hk' as [-> | ->]; simpl in H;
    try discriminate; simplify_eq;
    (apply app_inj_1 in H as [-> H]; [|congruence]);
    simpl in H; simplify_eq;
    (apply app_inj_1 in H as [-> H]; [|congruence]); auto.
Qed.

(** After the name's own [_risk_] there is no room for another one. *)
Lemma tail_no_later k d8 d6 e m m2 s2 g g2 :
  is_kind k -> digits 8 d8 -> digits 6 d6 -> is_ext e ->
  m <> [] ->
  artifact_tail k d8 d6 e = m ++ m2 ++ s2 ->
  matches tail_re m2 g g2 -> False.
Proof.
  intros Hk H8 H6 He Hm Heq Hm2.
  apply tail_matches_inv in Hm2 as (k' & d8' & d6' & e' & -> & Hk' & H8' & H6' & He' & _).
  pose proof (f_equal length Heq) as HL.
  rewrite !length_app, !tail_length in HL by assumption.
  destruct m as [|a m]; [congruence|]. simpl in HL.
  unfold artifact_tail in Heq.
  destruct Hk as [-> | ->], Hk' as [-> | ->]; simpl in HL; try lia.
  destruct m as [|b m]; simpl in Heq; [discriminate|].
  destruct m as [|c m]; simpl in Heq; [discriminate|].
  simpl in HL. lia.
Qed.

Lemma match_here_filename s :
  match_here filename_re s = rep CAny 1 None s after_token.
Proof. reflexivity. Qed.

Lemma after_token_sound m s' y :
  after_token m s' = Some y ->
  exists kind d8 d6 ext post,
    s' = artifact_tail kind d8 d6 ext ++ post /\ is_kind kind /\ digits 8 d8 /\
    digits 6 d6 /\ is_ext ext /\ y = name_groups m kind d8 d6 ext.
Proof.
  intros H. apply rmatch_sound in H as (m2 & post & g2 & -> & Hm2 & Hy).
  apply tail_matches_inv in Hm2 as (k & d8 & d6 & e & -> & Hk & H8 & H6 & He & ->).
  inversion Hy. exists k, d8, d6, e, post. auto 10.
Qed.

Lemma match_here_name tok kind d8 d6 ext :
  dot_plus tok -> is_kind kind -> digits 8 d8 -> digits 6 d6 -> is_ext ext ->
  match_here filename_re (tok ++ artifact_tail kind d8 d6 ext)
  = Some (name_groups tok kind d8 d6 ext).
Proof.
  intros [Hne Hnl] Hk H8 H6 He. rewrite match_here_filename.
  assert (Hsome : is_Some (after_token tok (artifact_tail kind d8 d6 ext))).
  { unfold after_token. rewrite <- (app_nil_r (artifact_tail kind d8 d6 ext)).
    eapply rmatch_complete; [apply tail_matches; assumption|eauto]. }
  destruct Hsome as [y Hy].
  assert (y = name_groups tok kind d8 d6 ext) as <-.
  { apply after_token_sound in Hy
      as (k' & d8' & d6' & e' & post & Heq & Hk' & H8' & H6' & He' & ->).
    pose proof (f_equal length Heq) as HL.
    rewrite length_app, !tail_length in HL by assumption.
    rewrite <- (app_nil_r (artifact_tail kind d8 d6 ext)) in Heq.
    destruct (tail_inj _ _ _ _ _ _ _ _ _ _ Hk Hk' (proj1 H8) (proj1 H8')
                (proj1 H6) (proj1 H6') Heq) as (-> & -> & ->).
    assert (post = []) as -> by (destruct post; [reflexivity|simpl in HL; lia]).
    rewrite !app_nil_r in Heq. unfold artifact_tail in Heq.
    repeat (apply app_inv_head in Heq). subst e'. reflexivity. }
  apply rep_greedy.
  - apply any_mem. exact Hnl.
  - destruct tok; [congruence|simpl; lia].
  - intros m r Hm Hr. destruct (after_token (tok ++ m) r) as [z|] eqn:E; [|exact E].
    exfalso. apply rmatch_sound in E as (m2 & post & g2 & -> & Hm2 & _).
    eapply tail_no_later; eauto.
  - exact Hy.
Qed.

End FilenameParse.

(** ** The filename parser on names of the convention *)

Module ParseFilename.
Import ReFacts SearchFacts FilenameFacts FilenameParse.

Lemma name_groups_lookup tok kind d8 d6 ext :
  group (name_groups tok kind d8 d6 ext) 1 = Some tok /\
  group (name_groups tok kind d8 d6 ext) 3 = Some (d8 ++ lit "_" ++ d6) /\
  group (name_groups tok kind d8 d6 ext) 2 = Some kind.
Proof.
  unfold group, name_groups, tail_groups. split; [|split]; reflexivity.
Qed.

(** A name of the convention, whatever its extension, parses into its
    token, its timestamp and its kind. *)
Lemma parse_filename_name tok kind d8 d6 ext :
  dot_plus tok -> is_kind kind -> digits 8 d8 -> digits 6 d6 -> is_ext ext ->
  parse_filename (tok ++ artifact_tail kind d8 d6 ext)
  = (Some tok, Some (d8 ++ lit "_" ++ d6), Some kind).
Proof.
  intros Ht Hk H8 H6 He. unfold parse_filename.
  rewrite (search_here _ _ _ (match_here_name tok kind d8 d6 ext Ht Hk H8 H6 He)).
  destruct (name_groups_lookup tok kind d8 d6 ext) as (-> & -> & ->). reflexivity.
Qed.

(** Whatever the parser accepts has the three groups set. *)
Lemma search_filename_groups f g :
  search filename_re f = Some g ->
  exists pre tok kind d8 d6 ext post,
    f = pre ++ (tok ++ artifact_tail kind d8 d6 ext) ++ post /\
    dot_plus tok /\ is_kind kind /\ digits 8 d8 /\ digits 6 d6 /\ is_ext ext /\
    g = name_groups tok kind d8 d6 ext.
Proof.
  intros H. apply search_sound in H as (pre & m & post & g' & -> & Hm & ->).
  rewrite filename_re_split in Hm. cbn [matches plus] in Hm.
  destruct Hm as (tok & m2 & g1 & -> & (g0 & (Hany & Hlen & _ & ->) & ->) & Hm2).
  apply tail_matches_inv in Hm2 as (k & d8 & d6 & e & -> & Hk & H8 & H6 & He & ->).
  exists pre, tok, k, d8, d6, e, post.
  split; [reflexivity|]. split; [|auto 10].
  split.
  - destruct tok; [simpl in Hlen; lia|discriminate].
  - apply any_mem. exact Hany.
Qed.

Lemma parse_filename_None f :
  search filename_re f = None -> parse_filename f = (None, None, None).
Proof. unfold parse_filename. intros ->. reflexivity. Qed.

(** The parser answers with three values or with none. *)
Lemma parse_filename_shape f :
  parse_filename f = (None, None, None) \/
  exists pre tok kind d8 d6 ext post,
    f = pre ++ (tok ++ artifact_tail kind d8 d6 ext) ++ post /\
    dot_plus tok /\ is_kind kind /\ digits 8 d8 /\ digits 6 d6 /\ is_ext ext /\
    parse_filename f = (Some tok, Some (d8 ++ lit "_" ++ d6), Some kind).
Proof.
  unfold parse_filename. destruct (search filename_re f) as [g|] eqn:E; [right|left; reflexivity].
  apply search_filename_groups in E
    as (pre & tok & k & d8 & d6 & e & post & -> & Ht & Hk & H8 & H6 & He & ->).
  exists pre, tok, k, d8, d6, e, post.
  destruct (name_groups_lookup tok k d8 d6 e) as (-> & -> & ->). auto 10.
Qed.

Lemma filename_needs_marker m g g' :
  matches filename_re m g g' -> contains (lit "_risk_") m = true.
Proof.
  rewrite filename_re_split. cbn [matches].
  intros (tok & m2 & g1 & -> & _ & Hm2).
  apply tail_matches_inv in Hm2 as (k & d8 & d6 & e & -> & _).
  unfold artifact_tail. apply contains_app.
Qed.

(** Anywhere in a longer name will do. *)
Lemma parse_filename_anywhere pre any kind d8 d6 ext post :
  dot_plus any -> is_kind kind -> digits 8 d8 -> digits 6 d6 -> is_ext ext ->
  exists tok ts k,
    parse_filename (pre ++ any ++ artifact_tail kind d8 d6 ext ++ post)
    = (Some tok, Some ts, Some k) /\ dot_plus tok /\ is_kind k /\
    exists e8 e6, ts = e8 ++ lit "_" ++ e6 /\ digits 8 e8 /\ digits 6 e6.
Proof.
  intros [Hne Hnl] Hk H8 H6 He.
  assert (Hm : matches filename_re (any ++ artifact_tail kind d8 d6 ext) ∅
                 (tail_groups kind d8 d6 ext (<[1%nat := any]> ∅))).
  { rewrite filename_re_split. cbn [matches plus].
    exists any, (artifact_tail kind d8 d6 ext), (<[1%nat := any]> ∅).
    split; [reflexivity|]. split; [|apply tail_matches; assumption].
    exists ∅. split; [|reflexivity]. repeat split.
    - apply any_mem. exact Hnl.
    - destruct any; [congruence|simpl; lia]. }
  destruct (search_complete _ _ _ pre post Hm) as [g Hg].
  rewrite <- app_assoc in Hg.
  destruct (parse_filename_shape (pre ++ any ++ artifact_tail kind d8 d6 ext ++ post))
    as [Hnone | (pre' & tok & k & e8 & e6 & e & post' & _ & Ht & Hk' & H8' & H6' & _ & Hp)].
  - unfold parse_filename in Hnone. rewrite Hg in Hnone.
    apply search_filename_groups in Hg
      as (? & tok & k & e8 & e6 & e & ? & _ & _ & _ & _ & _ & _ & ->).
    destruct (name_groups_lookup tok k e8 e6 e) as (Hg1 & _). rewrite Hg1 in Hnone.
    discriminate.
  - exists tok, (e8 ++ lit "_" ++ e6), k.
    split; [exact Hp|]. split; [exact Ht|]. split; [exact Hk'|].
    exists e8, e6. auto.
Qed.

Example parse_filename_trump :
  parse_filename (lit "TRUMP_risk_analysis_20251130_230334.csv")
  = (Some (lit "TRUMP"), Some (lit "20251130_230334"), Some (lit "analysis")).
Proof. vm_compute. reflexivity. Qed.

(** [.+] needs a character: a name that starts with the marker is refused. *)
Example parse_filename_needs_token :
  parse_filename (lit "_risk_report_20240101_120000.txt") = (None, None, None).
Proof. vm_compute. reflexivity. Qed.

End ParseFilename.

(** ** Artifact discovery *)

Module Discovery.
Import ReFacts SearchFacts FilenameFacts FilenameParse ParseFilename.

Lemma str_eqb_eq (a : str) : forall b, Dict.str_eqb a b = true <-> a = b.
Proof.
  induction a as [|x a IH]; intros [|y b]; simpl; split; try congruence.
  - intros H. apply andb_true_iff in H as [Hx Ha].
    apply N.eqb_eq in Hx. apply IH in Ha. congruence.
  - intros H. inversion H; subst. rewrite N.eqb_refl. simpl. apply IH. reflexivity.
Qed.

Lemma str_eqb_refl (a : str) : Dict.str_eqb a a = true.
Proof. apply str_eqb_eq. reflexivity. Qed.

Lemma str_eqb_neq (a b : str) : a <> b -> Dict.str_eqb a b = false.
Proof.
  intros H. destruct (Dict.str_eqb a b) eqn:E; [|reflexivity].
  apply str_eqb_eq in E. contradiction.
Qed.

Lemma get_set_eq {V} (d : Dict.dict V) k v : Dict.get (Dict.set d k v) k = Some v.
Proof.
  induction d as [|[k' v'] d IH]; simpl.
  - rewrite str_eqb_refl. reflexivity.
  - destruct (Dict.str_eqb k k') eqn:E; simpl.
    + rewrite str_eqb_refl. reflexivity.
    + rewrite E. exact IH.
Qed.

Lemma get_set_ne {V} (d : Dict.dict V) k k' v :
  k <> k' -> Dict.get (Dict.set d k v) k' = Dict.get d k'.
Proof.
  intros Hne. induction d as [|[k0 v0] d IH]; simpl.
  - rewrite str_eqb_neq by congruence. reflexivity.
  - destruct (Dict.str_eqb k k0) eqn:E; simpl.
    + apply str_eqb_eq in E. subst k0.
      rewrite (str_eqb_neq k' k) by congruence. reflexivity.
    + destruct (Dict.str_eqb k' k0); [reflexivity|exact IH].
Qed.

Lemma add_file_key folder dm f :
  add_file folder dm f =
  match key_of f with
  | Some (tok, date, ty) =>
      Dict.set dm tok
        (Dict.set (default [] (Dict.get dm tok)) date
           (Dict.set (default [] (Dict.get (default [] (Dict.get dm tok)) date)) ty
              (path_join folder f)))
  | None => dm
  end.
Proof.
  unfold add_file, key_of.
  destruct (parse_filename_shape f)
    as [-> | (pre & tok & k & d8 & d6 & e & post & _ & [Ht _] & _ & [H8 _] & _ & _ & ->)].
  - reflexivity.
  - destruct tok as [|c tok]; [congruence|].
    destruct d8 as [|c8 d8]; [discriminate|]. reflexivity.
Qed.

Lemma add_file_lookup folder dm f tok date ty :
  lookup3 (add_file folder dm f) tok date ty =
  if bool_decide (key_of f = Some (tok, date, ty))
  then Some (path_join folder f)
  else lookup3 dm tok date ty.
Proof.
  rewrite add_file_key. destruct (key_of f) as [[[t d] y]|] eqn:E.
  2:{ rewrite bool_decide_eq_false_2 by discriminate. reflexivity. }
  unfold lookup3.
  destruct (decide (t = tok)) as [->|Ht].
  2:{ rewrite get_set_ne by exact Ht.
      rewrite bool_decide_eq_false_2 by congruence. reflexivity. }
  rewrite get_set_eq.
  destruct (decide (d = date)) as [->|Hd].
  2:{ rewrite get_set_ne by exact Hd.
      rewrite bool_decide_eq_false_2 by congruence.
      destruct (Dict.get dm tok); reflexivity. }
  rewrite get_set_eq.
  destruct (decide (y = ty)) as [->|Hy].
  - rewrite get_set_eq, bool_decide_eq_true_2 by reflexivity. reflexivity.
  - rewrite get_set_ne by exact Hy.
    rewrite bool_decide_eq_false_2 by congruence.
    destruct (Dict.get dm tok) as [bd|]; simpl; [|reflexivity].
    destruct (Dict.get bd date); reflexivity.
Qed.

Lemma fold_lookup_notin folder tok date ty : forall files dm,
  (forall f, In f files -> key_of f <> Some (tok, date, ty)) ->
  lookup3 (fold_left (add_file folder) files dm) tok date ty = lookup3 dm tok date ty.
Proof.
  induction files as [|a files IH]; intros dm H; simpl; [reflexivity|].
  rewrite IH by (intros f Hf; apply H; right; exact Hf).
  rewrite add_file_lookup, bool_decide_eq_false_2; [reflexivity|].
  apply H. left. reflexivity.
Qed.

Lemma fold_lookup_in folder tok date ty f : forall files dm,
  NoDup (omap key_of files) ->
  In f files -> key_of f = Some (tok, date, ty) ->
  lookup3 (fold_left (add_file folder) files dm) tok date ty
  = Some (path_join folder f).
Proof.
  induction files as [|a files IH]; intros dm Hnd Hin Hk; [destruct Hin|].
  simpl in Hnd. simpl fold_left. destruct Hin as [->|Hin].
  - rewrite Hk in Hnd. apply NoDup_cons in Hnd as [Hnotin _].
    rewrite fold_lookup_notin.
    + rewrite add_file_lookup, bool_decide_eq_true_2 by exact Hk. reflexivity.
    + intros f' Hf' Hk'. apply Hnotin. apply list_elem_of_omap.
      exists f'. split; [apply list_elem_of_In; exact Hf'|exact Hk'].
  - apply IH; [|exact Hin|exact Hk].
    destruct (key_of a); [apply NoDup_cons in Hnd as [_ Hnd]|]; exact Hnd.
Qed.

(** When no two entries are filed under the same key, the mapping does
    not depend on the order in which the directory lists them. *)
Lemma discover_order folder files files' tok date ty :
  NoDup (omap key_of files) -> Permutation files files' ->
  lookup3 (discover folder files) tok date ty
  = lookup3 (discover folder files') tok date ty.
Proof.
  intros Hnd Hp. unfold discover.
  assert (Hnd' : NoDup (omap key_of files')).
  { rewrite <- Hp. exact Hnd. }
  assert (Hdec : forall f, {key_of f = Some (tok, date, ty)} +
                           {key_of f <> Some (tok, date, ty)})
    by (intros f; apply (decide (key_of f = Some (tok, date, ty)))).
  destruct (List.Exists_dec (fun f => key_of f = Some (tok, date, ty)) files Hdec)
    as [Hex|Hno].
  - apply List.Exists_exists in Hex as (f & Hin & Hk).
    rewrite (fold_lookup_in folder tok date ty f files) by assumption.
    rewrite (fold_lookup_in folder tok date ty f files'); auto.
    eapply Permutation_in; eauto.
  - rewrite !fold_lookup_notin; auto.
    + intros f Hin Hk. apply Hno. apply List.Exists_exists. exists f. split; auto.
      eapply Permutation_in; [symmetry; exact Hp|exact Hin].
    + intros f Hin Hk. apply Hno. apply List.Exists_exists. eauto.
Qed.

Lemma get_available_data_eq w folder :
  get_available_data w folder =
  if negb (path_exists w folder) then ([], Ret [])
  else match listdir w folder with
       | IoOk files =>
           ([print_data_map (discover folder files)], Ret (discover folder files))
       | IoFail e => ([], Raise (IOError e))
       end.
Proof.
  unfold get_available_data. destruct (negb (path_exists w folder)); [reflexivity|].
  destruct (listdir w folder); reflexivity.
Qed.

End Discovery.

(** ** The report parser *)

Module Report.
Import ReFacts SearchFacts.

Lemma parse_body_steps w path m :
  parse_body w path m =
  match open_read w path with
  | Raise e => (Raise e, m)
  | Ret content => run_steps (steps w) content m
  end.
Proof. reflexivity. Qed.

Lemma well_kinded_default : well_kinded default_metrics.
Proof.
  intros k. unfold default_metrics, kind_of_key.
  rewrite !lookup_insert, lookup_empty.
  repeat case_decide; try reflexivity; eexists; (split; [reflexivity|exact I]).
Qed.

Lemma well_kinded_insert m k b v :
  well_kinded m -> kind_of_key k = Some b -> same_kind b v ->
  well_kinded (<[k := v]> m).
Proof.
  intros Hm Hk Hv k'. rewrite lookup_insert. case_decide as E.
  - subst k'. rewrite Hk. eauto.
  - apply Hm.
Qed.

Lemma extract_ok p k c content m :
  step_ok (p, k, c) -> well_kinded m ->
  well_kinded (snd (extract p k c content m)) /\
  raises_Exception_only (fst (extract p k c content m)).
Proof.
  intros (b & Hk & Hc) Hm. unfold extract.
  destruct (search p content) as [g|]; [|simpl; auto].
  destruct (group g 1) as [text|]; [|simpl; auto].
  specialize (Hc text). destruct (c text) as [v|e]; simpl; [|auto].
  split; [|exact I]. eapply well_kinded_insert; eauto.
Qed.

Lemma run_steps_ok content : forall l m,
  Forall step_ok l -> well_kinded m ->
  well_kinded (snd (run_steps l content m)) /\
  raises_Exception_only (fst (run_steps l content m)).
Proof.
  induction l as [|[[p k] c] rest IH]; intros m Hl Hm; [simpl; auto|].
  inversion Hl as [|? ? Hst Hrest]; subst.
  destruct (extract_ok p k c content m Hst Hm) as [Hm1 He1].
  destruct rest as [|st rest]; [simpl; auto|].
  change (run_steps ((p, k, c) :: st :: rest) content m)
    with (pbind (extract p k c content) (fun _ => run_steps (st :: rest) content) m).
  unfold pbind. destruct (extract p k c content m) as [[u|e] m1]; simpl in *.
  - apply IH; assumption.
  - auto.
Qed.

Lemma py_float_ok text :
  match py_float text with
  | Ret v => same_kind true v
  | Raise e => is_Exception e = true
  end.
Proof.
  unfold py_float. destruct (split_dot text) as [whole frac].
  destruct (whole ++ default [] frac); [reflexivity|].
  destruct (digits_value 0 _); simpl; auto.
Qed.

Lemma py_int_ok limit text :
  match py_int limit text with
  | Ret v => same_kind false v
  | Raise e => is_Exception e = true
  end.
Proof.
  unfold py_int. destruct (digits_value 0 text); [|reflexivity].
  destruct text; [reflexivity|]. destruct limit as [l|]; [|exact I].
  destruct (Nat.ltb l _); simpl; auto.
Qed.

Lemma steps_ok w : Forall step_ok (steps w).
Proof.
  unfold steps.
  repeat (apply Forall_cons; split;
          [first [ exists true; split; [reflexivity|apply py_float_ok]
                 | exists false; split; [reflexivity|apply py_int_ok] ] |]).
  apply Forall_nil. exact I.
Qed.

(** A step whose pattern finds nothing leaves its key alone, and so does
    every other step as long as the keys differ. *)
Lemma extract_other p k c content m key :
  (k = key -> search p content = None) ->
  snd (extract p k c content m) !! key = m !! key.
Proof.
  intros H. unfold extract.
  destruct (search p content) as [g|] eqn:E; [|reflexivity].
  destruct (group g 1) as [text|]; [|reflexivity].
  destruct (c text) as [v|e]; [|reflexivity]. simpl.
  apply lookup_insert_ne. intros ->. specialize (H eq_refl). discriminate.
Qed.

Lemma run_steps_other content key : forall l m,
  (forall p c, In (p, key, c) l -> search p content = None) ->
  snd (run_steps l content m) !! key = m !! key.
Proof.
  induction l as [|[[p k] c] rest IH]; intros m H; [reflexivity|].
  assert (H1 : k = key -> search p content = None)
    by (intros ->; apply (H p c); left; reflexivity).
  destruct rest as [|st rest]; [apply extract_other; exact H1|].
  change (run_steps ((p, k, c) :: st :: rest) content m)
    with (pbind (extract p k c content) (fun _ => run_steps (st :: rest) content) m).
  unfold pbind.
  pose proof (extract_other p k c content m key H1) as Hx.
  destruct (extract p k c content m) as [[u|e] m1]; simpl in *; [|exact Hx].
  rewrite IH; [exact Hx|]. intros p' c' Hin. apply (H p' c'). right. exact Hin.
Qed.

Lemma nonempty_length {A} (l : list A) : l <> [] <-> (1 <= length l)%nat.
Proof. destruct l; simpl; split; try congruence; lia. Qed.

Lemma score_re_matches label m g g' :
  matches (score_re label) m g g' -> score_line label m.
Proof.
  unfold score_re, star, plus. cbn [matches].
  intros (m1 & m2 & g1 & -> & [-> ->] & m3 & m4 & g2 & -> & [-> ->] &
          sp & m5 & g3 & -> & (Hsp & _ & _ & ->) & g4 & (Hv & Hlen & _ & ->) & ->).
  exists sp, m5. split; [reflexivity|]. split; [exact Hsp|].
  split; [apply nonempty_length; exact Hlen|].
  eapply Forall_impl; [exact Hv|]. intros c Hc. simpl in Hc.
  apply orb_true_iff in Hc as [Hc|Hc]; [left; exact Hc|right].
  apply N.eqb_eq. exact Hc.
Qed.

Lemma count_re_matches level m g g' :
  matches (count_re level) m g g' -> count_line level m.
Proof.
  unfold count_re, star, plus. cbn [matches].
  intros (m1 & m2 & g1 & -> & [-> ->] & sp1 & m3 & g2 & -> & (Hsp1 & _ & _ & ->) &
          m4 & m5 & g3 & -> & [-> ->] & sp2 & m6 & g4 & -> & (Hsp2 & _ & _ & ->) &
          v & m7 & g5 & -> & (g6 & (Hv & Hlen & _ & ->) & ->) &
          sp3 & m8 & g7 & -> & (Hsp3 & _ & _ & ->) & -> & ->).
  exists sp1, sp2, v, sp3. split; [reflexivity|].
  split; [rewrite !Forall_app; auto|].
  split; [apply nonempty_length; exact Hlen|exact Hv].
Qed.

Lemma search_None_line r line content :
  (forall m g g', matches r m g g' -> line m) ->
  ~ occurs line content -> search r content = None.
Proof.
  intros Hr Hno. destruct (search r content) as [g|] eqn:E; [|reflexivity].
  exfalso. apply search_sound in E as (pre & m & post & g' & -> & Hm & _).
  apply Hno. exists pre, m, post. split; [reflexivity|]. eapply Hr; eauto.
Qed.

(** A text without the label has no such line. *)
Lemma no_label_no_score_line label content :
  contains (lit label) content = false -> ~ occurs (score_line label) content.
Proof.
  intros Hc (pre & m & post & -> & sp & v & -> & _).
  rewrite <- !app_assoc in Hc. rewrite contains_app in Hc. discriminate.
Qed.

Lemma no_label_no_count_line level content :
  contains (lit level) content = false -> ~ occurs (count_line level) content.
Proof.
  intros Hc (pre & m & post & -> & sp1 & sp2 & v & sp3 & -> & _).
  rewrite <- !app_assoc in Hc. rewrite contains_app in Hc. discriminate.
Qed.

Lemma parse_risk_report_eq w path :
  parse_risk_report w path =
  let '(r, m) := parse_body w path default_metrics in
  match r with
  | Ret _ => ([], Ret m)
  | Raise e => if is_Exception e
               then ([st_error_exn "Error parsing text report" e], Ret m)
               else ([], Raise e)
  end.
Proof.
  unfold parse_risk_report. destruct (parse_body w path default_metrics) as [[u|e] m];
    [reflexivity|]. destruct (is_Exception e); reflexivity.
Qed.

Lemma parse_body_ok w path :
  well_kinded (snd (parse_body w path default_metrics)) /\
  raises_Exception_only (fst (parse_body w path default_metrics)).
Proof.
  rewrite parse_body_steps. unfold open_read.
  destruct (file_at w path); try (split; [apply well_kinded_default|reflexivity]).
  apply run_steps_ok; [apply steps_ok|apply well_kinded_default].
Qed.

(** The parser always returns, and returns the dict of the try block. *)
Lemma parse_risk_report_returns w path :
  exists out,
    parse_risk_report w path = (out, Ret (snd (parse_body w path default_metrics))).
Proof.
  rewrite parse_risk_report_eq.
  destruct (parse_body_ok w path) as [_ He].
  destruct (parse_body w path default_metrics) as [[u|e] m]; simpl in *; [eauto|].
  rewrite He. eauto.
Qed.

Lemma parse_body_default w path key line d content :
  file_at w path = Text content ->
  In (key, line, d) report_lines -> ~ occurs line content ->
  snd (parse_body w path default_metrics) !! key = Some d.
Proof.
  intros Hf Hin Hno. rewrite parse_body_steps. unfold open_read. rewrite Hf.
  rewrite run_steps_other.
  - simpl in Hin.
    repeat (destruct Hin as [Hin|Hin]; [inversion Hin; subst; reflexivity|]).
    destruct Hin.
  - intros p c Hp. simpl in Hin, Hp.
    repeat (destruct Hin as [Hin|Hin];
            [inversion Hin; subst; clear Hin;
             repeat (destruct Hp as [Hp|Hp];
                     [inversion Hp; subst; clear Hp;
                      first [ eapply search_None_line;
                              [apply score_re_matches|exact Hno]
                            | eapply search_None_line;
                              [apply count_re_matches|exact Hno] ]
                     |]);
             destruct Hp
            |]).
    destruct Hin.
Qed.

End Report.

(** ** The table loader and the ten riskiest wallets *)

Module Table.

Lemma load_csv_data_eq w path :
  load_csv_data w path =
  match read_csv w path with
  | IoFail e => ([st_error_exn "Error loading CSV" (IOError e)], Ret empty_frame)
  | IoOk df =>
      match index_of risk_score (columns df) with
      | None => ([st_error_exn "Error loading CSV" (KeyError (KStr risk_score))],
                 Ret empty_frame)
      | Some i => ([], Ret (coerced w i df))
      end
  end.
Proof.
  unfold load_csv_data, coerce_column, risk_score, coerced.
  destruct (read_csv w path) as [df|e]; [|reflexivity].
  simpl. destruct (index_of (lit "risk_score") (columns df)); reflexivity.
Qed.



Lemma top_10_eq w df i :
  index_of risk_score (columns df) = Some i ->
  top_10 w df = Ret {| columns := columns df;
                       rows := take 10 (quicksort_desc w (score_at i) (rows df)) |}.
Proof. unfold top_10, risk_score. intros ->. reflexivity. Qed.

Section Ordered.
Context {A : Type} (R : A -> A -> Prop).

Lemma FOP_app_inv (l1 l2 : list A) :
  ForallOrdPairs R (l1 ++ l2) ->
  ForallOrdPairs R l1 /\ ForallOrdPairs R l2 /\
  (forall a b, In a l1 -> In b l2 -> R a b).
Proof.
  induction l1 as [|x l1 IH]; simpl; intros H.
  - split; [constructor|]. split; [exact H|]. intros a b [].
  - inversion H as [|? ? Hx Hl]; subst.
    destruct (IH Hl) as (H1 & H2 & H12).
    apply List.Forall_app in Hx as [Hx1 Hx2].
    split; [constructor; assumption|]. split; [exact H2|].
    intros a b [<-|Ha] Hb.
    + rewrite List.Forall_forall in Hx2. apply Hx2. exact Hb.
    + apply H12; assumption.
Qed.

End Ordered.



(** What the sort's contract gives for the first ten rows. *)
Lemma take_10_sorted key (input output : list row) :
  pandas_sorted_desc key input output ->
  length (take 10 output) = Nat.min 10 (length input) /\
  ForallOrdPairs (fun a b => may_precede (key a) (key b) = true) (take 10 output) /\
  Permutation input (take 10 output ++ drop 10 output) /\
  (forall a b, In a (take 10 output) -> In b (drop 10 output) ->
               may_precede (key a) (key b) = true).
Proof.
  intros [Hp Hs]. rewrite <- (take_drop 10 output) in Hs.
  apply FOP_app_inv in Hs as (H1 & _ & H12).
  split; [rewrite length_take, (Permutation_length Hp); reflexivity|].
  split; [exact H1|]. split; [rewrite take_drop; exact Hp|exact H12].
Qed.


End Table.

(** ** The viewer script *)

Module Viewer.
Import ReFacts SearchFacts FilenameFacts FilenameParse ParseFilename Discovery.
Import Report Table.

Lemma key_of_nonempty f k : key_of f = Some k -> f <> [].
Proof.
  unfold key_of. intros H ->. vm_compute in H. discriminate.
Qed.

Lemma path_join_nonempty a f : f <> [] -> path_join a f <> [].
Proof.
  unfold path_join. intros Hf. destruct f as [|c f]; [congruence|].
  destruct (N.eqb c slash); [discriminate|].
  destruct (last a) as [d|]; [|discriminate].
  destruct (N.eqb d slash); destruct a; discriminate.
Qed.

Lemma fold_lookup_some folder tok date ty p : forall files dm,
  lookup3 (fold_left (add_file folder) files dm) tok date ty = Some p ->
  (exists f, In f files /\ key_of f = Some (tok, date, ty) /\ p = path_join folder f) \/
  lookup3 dm tok date ty = Some p.
Proof.
  induction files as [|a files IH]; intros dm H; simpl in H; [right; exact H|].
  apply IH in H as [(f & Hin & Hk & Hp)|H].
  - left. exists f. split; [right; exact Hin|auto].
  - rewrite add_file_lookup in H. case_bool_decide as Hk.
    + left. exists a. inversion H. split; [left; reflexivity|auto].
    + right. exact H.
Qed.

(** Every path that discovery stores is a non-empty string. *)
Lemma discover_paths_truthy folder files tok date ty p :
  lookup3 (discover folder files) tok date ty = Some p -> truthy (Some p) = true.
Proof.
  intros H. apply fold_lookup_some in H as [(f & _ & Hk & ->)|H]; [|discriminate].
  pose proof (path_join_nonempty folder f (key_of_nonempty _ _ Hk)) as Hne.
  destruct (path_join folder f); [congruence|reflexivity].
Qed.

Lemma quiet_bind {A B} (c : M A) (k : A -> M B) :
  quiet c -> (forall a, snd c = Ret a -> quiet (k a)) -> quiet (bind c k).
Proof.
  intros Hc Hk msg. destruct c as [out [a|e]]; simpl.
  - specialize (Hk a eq_refl msg). destruct (k a) as [out' r]. simpl in *.
    intros Hin. apply in_app_or in Hin as [Hin|Hin]; [exact (Hc msg Hin)|exact (Hk Hin)].
  - apply Hc.
Qed.

Lemma quiet_emit (u : ui) :
  (forall msg, u <> st_error_missing msg) -> quiet (emit u).
Proof. intros Hu msg [H|[]]. exact (Hu msg H). Qed.

Lemma quiet_lift {A} (r : result A) : quiet (lift r).
Proof. intros msg []. Qed.

Lemma quiet_ret {A} (a : A) : quiet (ret a : M A).
Proof. intros msg []. Qed.

Lemma quiet_raise {A} e : quiet (raise e : M A).
Proof. intros msg []. Qed.

Ltac quiet_steps :=
  repeat first
    [ apply quiet_ret
    | apply quiet_raise
    | apply quiet_lift
    | apply quiet_emit; discriminate
    | apply quiet_bind; [|intros ? _] ].

Lemma quiet_parse_risk_report w path : quiet (parse_risk_report w path).
Proof.
  rewrite parse_risk_report_eq.
  destruct (parse_body w path default_metrics) as [[u|e] m]; [intros msg []|].
  destruct (is_Exception e); intros msg Hin; simpl in Hin; intuition discriminate.
Qed.

Lemma quiet_load_csv_data w path : quiet (load_csv_data w path).
Proof.
  rewrite load_csv_data_eq. destruct (read_csv w path) as [df|e].
  - destruct (index_of risk_score (columns df));
      intros msg Hin; simpl in Hin; intuition discriminate.
  - intros msg Hin; simpl in Hin; intuition discriminate.
Qed.

Lemma quiet_render_metrics tok m : quiet (render_metrics tok m).
Proof. unfold render_metrics. quiet_steps. Qed.

Lemma quiet_render_top_10 w df : quiet (render_top_10 w df).
Proof. unfold render_top_10. quiet_steps. Qed.

Lemma quiet_get_available_data w folder : quiet (get_available_data w folder).
Proof.
  rewrite get_available_data_eq. destruct (negb (path_exists w folder)); [intros msg []|].
  destruct (listdir w folder); intros msg Hin; simpl in Hin; intuition discriminate.
Qed.

Lemma get_available_data_discover w folder dm :
  snd (get_available_data w folder) = Ret dm ->
  dm = [] \/ exists files, dm = discover folder files.
Proof.
  rewrite get_available_data_eq. destruct (negb (path_exists w folder)).
  - intros H. inversion H. left. reflexivity.
  - destruct (listdir w folder) as [files|e]; intros H; inversion H. eauto.
Qed.

Lemma getitem_opt_get {V} (d : Dict.dict V) k v :
  getitem_opt d k = Ret v -> exists s, k = Some s /\ Dict.get d s = Some v.
Proof.
  unfold getitem_opt, Dict.getitem. destruct k as [s|]; [|discriminate].
  destruct (Dict.get d s) eqn:E; intros H; inversion H; subst. eauto.
Qed.

(** The script renders neither "missing" message, whatever the folder
    holds and whatever is selected. *)
Lemma dashboard_quiet w user : quiet (dashboard w user).
Proof.
  unfold dashboard.
  apply quiet_bind; [apply quiet_emit; discriminate|intros _ _].
  apply quiet_bind; [apply quiet_emit; discriminate|intros _ _].
  apply quiet_bind; [apply quiet_get_available_data|intros data_tree Htree].
  apply quiet_bind; [destruct (Dict.keys data_tree); quiet_steps|intros _ _].
  apply quiet_bind; [quiet_steps|intros _ _].
  apply quiet_bind; [quiet_steps|intros _ _].
  apply quiet_bind; [quiet_steps|intros by_date Hby].
  apply quiet_bind; [quiet_steps|intros _ _].
  apply quiet_bind; [quiet_steps|intros files Hfiles].
  apply quiet_bind; [quiet_steps|intros _ _].
  apply quiet_bind; [quiet_steps|intros _ _].
  apply quiet_bind; [quiet_steps|intros r0 _].
  apply quiet_bind; [quiet_steps|intros _ _].
  apply quiet_bind; [quiet_steps|intros a0 _].
  apply quiet_bind; [quiet_steps|intros _ _].
  simpl in Hby, Hfiles.
  apply getitem_opt_get in Hby as (tok & _ & Hby).
  apply getitem_opt_get in Hfiles as (date & _ & Hfiles).
  assert (Htruthy : forall ty p, Dict.get files ty = Some p -> truthy (Some p) = true).
  { intros ty p Hp.
    destruct (get_available_data_discover _ _ _ Htree) as [->|[listing ->]];
      [discriminate|].
    apply (discover_paths_truthy DATA_FOLDER listing tok date ty).
    unfold lookup3. rewrite Hby, Hfiles. exact Hp. }
  apply quiet_bind; [quiet_steps|intros report Hreport].
  apply quiet_bind.
  { simpl in Hreport. unfold Dict.getitem in Hreport.
    destruct (Dict.get files (lit "report")) as [p|] eqn:E; inversion Hreport; subst.
    rewrite (Htruthy _ _ E). apply quiet_parse_risk_report. }
  intros report_metrics _.
  apply quiet_bind; [quiet_steps|intros analysis Hanalysis].
  apply quiet_bind.
  { simpl in Hanalysis. unfold Dict.getitem in Hanalysis.
    destruct (Dict.get files (lit "analysis")) as [p|] eqn:E; inversion Hanalysis; subst.
    rewrite (Htruthy _ _ E). apply quiet_load_csv_data. }
  intros csv_df _.
  apply quiet_bind.
  - case_bool_decide; [apply quiet_ret|apply quiet_render_metrics].
  - intros _ _. destruct (df_empty csv_df); [apply quiet_ret|apply quiet_render_top_10].
Qed.

End Viewer.

(** ** The pipeline loop *)

Module Pipeline.

Lemma bind_assoc {O A B C} (c : Script O A) (k : A -> Script O B)
      (k' : B -> Script O C) :
  bind (bind c k) k' = bind c (fun a => bind (k a) k').
Proof.
  destruct c as [out [a|e]]; simpl; [|reflexivity].
  destruct (k a) as [out1 [b|e]]; simpl; [|reflexivity].
  destruct (k' b) as [out2 r]. rewrite app_assoc. reflexivity.
Qed.

Lemma bind_Ret {O A B} (out : list O) (a : A) (k : A -> Script O B) :
  bind (out, Ret a) k = (out ++ fst (k a), snd (k a)).
Proof. simpl. destruct (k a). reflexivity. Qed.

Lemma bind_Raise {O A B} (out : list O) e (k : A -> Script O B) :
  bind (out, Raise e) k = (out, Raise e).
Proof. reflexivity. Qed.

Lemma bind_ext {O A B} (c : Script O A) (k k' : A -> Script O B) :
  (forall a, k a = k' a) -> bind c k = bind c k'.
Proof.
  intros H. destruct c as [out [a|e]]; simpl; [rewrite H|]; reflexivity.
Qed.

Lemma analyze_token_split cfg t tok :
  analyze_token cfg t tok = (holder_stages t tok ;;; later_stages cfg t tok).
Proof.
  unfold analyze_token, holder_stages.
  rewrite bind_assoc. apply bind_ext; intros _.
  rewrite bind_assoc. apply bind_ext; intros h.
  apply bind_ext; intros _.
  unfold later_stages. apply bind_ext; intros [| |]; try reflexivity.
  apply bind_ext; intros _.
  unfold wash_stage. rewrite bind_assoc. apply bind_ext; intros _.
  rewrite bind_assoc. apply bind_ext; intros _.
  reflexivity.
Qed.

Lemma analysed_app out1 out2 : analysed (out1 ++ out2) = analysed out1 ++ analysed out2.
Proof.
  induction out1 as [|u out1 IH]; [reflexivity|].
  destruct u; simpl; rewrite IH; reflexivity.
Qed.

Lemma holder_stages_no_data t tok :
  fetch_token_holders t = Ret false ->
  holder_stages t tok
  = ([print_analyzing tok; enter holder_fetch tok; print_skip_holder], Ret tt).
Proof. unfold holder_stages, stage_call. intros ->. reflexivity. Qed.

Lemma holder_stages_caught t tok e :
  fetch_token_holders t = Ret true -> holder_raises t e -> is_Exception e = true ->
  holder_stages t tok
  = ([print_analyzing tok; enter holder_fetch tok; enter holder_analysis tok;
      print_holder_failed e], Ret tt).
Proof.
  unfold holder_stages, stage_call. intros -> [H|[H1 H2]] He.
  - rewrite H. simpl. rewrite He. reflexivity.
  - rewrite H1, H2. simpl. rewrite He. reflexivity.
Qed.

Lemma holder_stages_done t tok :
  fetch_token_holders t = Ret true ->
  HolderAnalyzer t = Ret tt -> run_analysis t = Ret tt ->
  holder_stages t tok
  = ([print_analyzing tok; enter holder_fetch tok; enter holder_analysis tok], Ret tt).
Proof. unfold holder_stages, stage_call. intros -> -> ->. reflexivity. Qed.

Lemma later_stages_start cfg t tok :
  exists out, fst (later_stages cfg t tok) = enter transfer_fetch tok :: out.
Proof.
  unfold later_stages, stage_call.
  destruct (fetch_and_process_token t) as [u|e]; [|simpl; eauto].
  rewrite bind_Ret. simpl. eauto.
Qed.


Lemma wash_stage_raises t tok e :
  wash_raises t e -> wash_stage t tok = ([enter wash_trading tok], Raise e).
Proof.
  unfold wash_stage, stage_call.
  intros [H|[[H1 H2]|(H1 & H2 & H3)]].
  - rewrite H. reflexivity.
  - rewrite H1, H2. reflexivity.
  - rewrite H1, H2, H3. reflexivity.
Qed.

Lemma holder_stages_analysed t tok : analysed (fst (holder_stages t tok)) = [tok].
Proof.
  unfold holder_stages, stage_call, try_except, bind, lift, emit.
  destruct (fetch_token_holders t) as [[|]|e]; try reflexivity.
  destruct (HolderAnalyzer t) as [[]|e]; simpl.
  - destruct (run_analysis t) as [[]|e]; simpl; [reflexivity|].
    destruct (is_Exception e); reflexivity.
  - destruct (is_Exception e); reflexivity.
Qed.

Lemma guarded_stages_analysed cfg t tok : analysed (fst (guarded_stages cfg t tok)) = [].
Proof.
  unfold guarded_stages, stage_call, try_except, bind, lift, emit, ret.
  repeat (case_match; simplify_eq/=; try (destruct (is_Exception _) eqn:?));
    simplify_eq/=; reflexivity.
Qed.

Lemma wash_stage_analysed t tok : analysed (fst (wash_stage t tok)) = [].
Proof.
  unfold wash_stage, stage_call, bind, lift.
  repeat (case_match; simplify_eq/=); reflexivity.
Qed.

Lemma fst_bind {O A B} (c : Script O A) (k : A -> Script O B) :
  fst (bind c k) = fst c ++ match snd c with
                            | Ret a => fst (k a)
                            | Raise _ => []
                            end.
Proof.
  destruct c as [out [a|e]]; simpl; [|rewrite app_nil_r; reflexivity].
  destruct (k a); reflexivity.
Qed.

Lemma later_stages_analysed cfg t tok : analysed (fst (later_stages cfg t tok)) = [].
Proof.
  unfold later_stages, stage_call.
  destruct (fetch_and_process_token t) as [[| |]|e]; try reflexivity.
  rewrite bind_Ret. cbn [fst snd app analysed].
  destruct (to_csv t) as [[]|e]; [|reflexivity].
  rewrite bind_Ret. cbn [fst snd app analysed].
  rewrite fst_bind, analysed_app, wash_stage_analysed. cbn [app].
  destruct (snd (wash_stage t tok)); [|reflexivity].
  apply guarded_stages_analysed.
Qed.

Lemma analyze_token_analysed cfg t tok :
  analysed (fst (analyze_token cfg t tok)) = [tok].
Proof.
  rewrite analyze_token_split, fst_bind, analysed_app, holder_stages_analysed.
  destruct (snd (holder_stages t tok)); [|reflexivity].
  rewrite later_stages_analysed. reflexivity.
Qed.

Lemma token_loop_app cfg p : forall pre i rest,
  token_loop cfg p i (pre ++ rest)
  = (token_loop cfg p i pre ;;; token_loop cfg p (i + length pre) rest).
Proof.
  induction pre as [|tok pre IH]; intros i rest.
  - simpl. rewrite Nat.add_0_r. destruct (token_loop cfg p i rest). reflexivity.
  - simpl. rewrite IH, bind_assoc.
    replace (S i + length pre)%nat with (i + S (length pre))%nat by lia. reflexivity.
Qed.

Lemma token_loop_analysed cfg p : forall toks i out,
  token_loop cfg p i toks = (out, Ret tt) -> analysed out = toks.
Proof.
  induction toks as [|tok toks IH]; intros i out H; simpl in H.
  - inversion H. reflexivity.
  - pose proof (analyze_token_analysed cfg (turn_of p i) tok) as Ha.
    destruct (analyze_token cfg (turn_of p i) tok) as [out1 [[]|e]]; simpl in *;
      [|discriminate].
    destruct (token_loop cfg p (S i) toks) as [out2 [[]|e]] eqn:E; inversion H; subst.
    rewrite analysed_app, Ha, (IH _ _ E). reflexivity.
Qed.

(** Once the wash-trading stage is entered and its detector raises, the
    turn ends with that exception. *)
Lemma wash_escapes cfg t tok e :
  In (enter wash_trading tok) (fst (analyze_token cfg t tok)) ->
  wash_raises t e ->
  snd (analyze_token cfg t tok) = Raise e /\
  ~ In (enter bot_detection tok) (fst (analyze_token cfg t tok)) /\
  ~ In (enter combined_scoring tok) (fst (analyze_token cfg t tok)).
Proof.
  intros Hin Hw. rewrite analyze_token_split in *.
  unfold later_stages in *. rewrite (wash_stage_raises t tok e Hw) in *.
  unfold holder_stages, stage_call, try_except, bind, lift, emit in *.
  repeat (case_match; simplify_eq/=; try (destruct (is_Exception _) eqn:?));
    simplify_eq/=; intuition (try discriminate; try congruence).
Qed.

(** An [Exception] leaves a turn only from a call outside every [try]:
    one of the two fetches, the write of the flows, or the wash-trading
    detector. *)
Lemma exception_sources cfg t tok out e :
  analyze_token cfg t tok = (out, Raise e) -> is_Exception e = true ->
  fetch_token_holders t = Raise e \/ fetch_and_process_token t = Raise e \/
  to_csv t = Raise e \/ wash_raises t e.
Proof.
  unfold analyze_token, wash_raises, stage_call, try_except, bind, lift, emit, ret.
  intros H He.
  repeat (case_match; simplify_eq/=; try (destruct (is_Exception _) eqn:?));
    simplify_eq/=;
    repeat match goal with a : unit |- _ => destruct a end;
    auto 10; try congruence.
Qed.

Lemma analyze_token_start cfg t tok :
  exists out, fst (analyze_token cfg t tok) = print_analyzing tok :: out.
Proof.
  unfold analyze_token. rewrite fst_bind. simpl. eauto.
Qed.

Lemma token_loop_cons cfg p i tok rest :
  token_loop cfg p i (tok :: rest)
  = (holder_stages (turn_of p i) tok ;;;
     later_stages cfg (turn_of p i) tok ;;;
     token_loop cfg p (S i) rest).
Proof. simpl. rewrite analyze_token_split, bind_assoc. reflexivity. Qed.

(** The closing line is [main]'s own: no turn prints it. *)
Lemma analyze_token_not_complete cfg t tok d :
  ~ In (print_complete d) (fst (analyze_token cfg t tok)).
Proof.
  destruct (analyze_token cfg t tok) as [out r] eqn:E. simpl.
  unfold analyze_token, stage_call, try_except, bind, lift, emit, ret in E.
  repeat (case_match; simplify_eq/=; try (destruct (is_Exception _) eqn:?));
    simplify_eq/=; intuition discriminate.
Qed.

Lemma token_loop_not_complete cfg p d : forall toks i,
  ~ In (print_complete d) (fst (token_loop cfg p i toks)).
Proof.
  induction toks as [|tok toks IH]; intros i; simpl; [intros []|].
  rewrite fst_bind. intros Hin. apply in_app_or in Hin as [Hin|Hin].
  - exact (analyze_token_not_complete _ _ _ _ Hin).
  - destruct (snd (analyze_token cfg (turn_of p i) tok)); [|destruct Hin].
    exact (IH _ Hin).
Qed.

End Pipeline.

(** * The properties of the design document *)

(** ** Filenames *)

Import ReFacts SearchFacts FilenameFacts FilenameParse ParseFilename.

(** C7: the filename parser rejects [foo.csv], as it rejects every name
    without the [_risk_] marker, and accepts
    [ABC_risk_analysis_20240101_120000.csv] with token [ABC], timestamp
    [20240101_120000] and kind [analysis]; for every token that [.+] can
    match, underscores included, a name of the convention parses into that
    token, its timestamp and its kind. *)
Theorem parse_filename_convention :
  parse_filename (lit "foo.csv") = (None, None, None) /\
  (forall f, contains (lit "_risk_") f = false ->
             parse_filename f = (None, None, None)) /\
  parse_filename (lit "ABC_risk_analysis_20240101_120000.csv")
  = (Some (lit "ABC"), Some (lit "20240101_120000"), Some (lit "analysis")) /\
  (forall tok kind d8 d6 ext,
     dot_plus tok -> is_kind kind -> digits 8 d8 -> digits 6 d6 -> is_ext ext ->
     parse_filename (tok ++ artifact_tail kind d8 d6 ext)
     = (Some tok, Some (d8 ++ lit "_" ++ d6), Some kind)).
Proof.
  split; [vm_compute; reflexivity|]. split; [|split].
  - intros f Hf. apply parse_filename_None.
    eapply search_None_without; [|exact Hf].
    intros m g g'. apply filename_needs_marker.
  - vm_compute. reflexivity.
  - intros tok kind d8 d6 ext. apply parse_filename_name.
Qed.

(** A token with underscores, and with a [_risk_] of its own. *)
Lemma parse_filename_convention_witness :
  dot_plus (lit "MY_risk_TOKEN") /\
  parse_filename (lit "MY_risk_TOKEN" ++
                  artifact_tail (lit "report") (lit "20240101") (lit "120000") (lit "txt"))
  = (Some (lit "MY_risk_TOKEN"), Some (lit "20240101" ++ lit "_" ++ lit "120000"),
     Some (lit "report")).
Proof.
  assert (Ht : dot_plus (lit "MY_risk_TOKEN"))
    by (split; [discriminate|repeat constructor; discriminate]).
  split; [exact Ht|].
  apply (proj2 (proj2 (proj2 parse_filename_convention))).
  - exact Ht.
  - right. reflexivity.
  - split; [reflexivity|repeat constructor].
  - split; [reflexivity|repeat constructor].
  - right. reflexivity.
Defined.

(** C9: the pattern is searched for, not anchored, and the kind is never
    compared with the extension: a name that holds
    [<anything>_risk_<analysis|report>_<8 digits>_<6 digits>.<csv|txt>]
    somewhere, with whatever before and after it, parses into three
    values; [ABC_risk_analysis_20240101_120000.csv.bak] parses, and
    [ABC_risk_report_20240101_120000.csv] parses with kind [report]. *)
Theorem parse_filename_unanchored :
  (forall pre any kind d8 d6 ext post,
     dot_plus any -> is_kind kind -> digits 8 d8 -> digits 6 d6 -> is_ext ext ->
     exists tok ts k,
       parse_filename (pre ++ any ++ artifact_tail kind d8 d6 ext ++ post)
       = (Some tok, Some ts, Some k) /\ dot_plus tok /\ is_kind k /\
       exists e8 e6, ts = e8 ++ lit "_" ++ e6 /\ digits 8 e8 /\ digits 6 e6) /\
  (forall tok kind d8 d6 ext,
     dot_plus tok -> is_kind kind -> digits 8 d8 -> digits 6 d6 -> is_ext ext ->
     exists t ts, parse_filename (tok ++ artifact_tail kind d8 d6 ext)
                  = (Some t, Some ts, Some kind)) /\
  parse_filename (lit "ABC_risk_analysis_20240101_120000.csv.bak")
  = (Some (lit "ABC"), Some (lit "20240101_120000"), Some (lit "analysis")) /\
  parse_filename (lit "ABC_risk_report_20240101_120000.csv")
  = (Some (lit "ABC"), Some (lit "20240101_120000"), Some (lit "report")).
Proof.
  split; [|split; [|split]].
  - intros pre any kind d8 d6 ext post. apply parse_filename_anywhere.
  - intros tok kind d8 d6 ext Ht Hk H8 H6 He.
    exists tok, (d8 ++ lit "_" ++ d6). apply parse_filename_name; assumption.
  - vm_compute. reflexivity.
  - vm_compute. reflexivity.
Qed.

(** A name with a directory-like prefix and a backup suffix. *)
Lemma parse_filename_unanchored_witness :
  exists tok ts k,
    parse_filename (lit "old/" ++ lit "X" ++
                    artifact_tail (lit "report") (lit "20240101") (lit "120000")
                                  (lit "csv") ++ lit ".bak")
    = (Some tok, Some ts, Some k) /\ dot_plus tok /\ is_kind k /\
    exists e8 e6, ts = e8 ++ lit "_" ++ e6 /\ digits 8 e8 /\ digits 6 e6.
Proof.
  apply (proj1 parse_filename_unanchored).
  - split; [discriminate|repeat constructor; discriminate].
  - right. reflexivity.
  - split; [reflexivity|repeat constructor].
  - split; [reflexivity|repeat constructor].
  - left. reflexivity.
Defined.

(** ** Discovery *)

Import Discovery.

(** C8: artifact discovery reads nothing but the existence of the folder
    and its listing: two runs that see the same listing return the same
    Token -> Timestamp -> {report, table} mapping (and print the same);
    and when the listing comes back in another order, with no two entries
    filed under the same key, every [mapping[token][date][kind]] is still
    the same. *)
Theorem discovery_idempotent (w1 w2 : world) (folder : str) :
  path_exists w1 folder = path_exists w2 folder ->
  (listdir w1 folder = listdir w2 folder ->
   get_available_data w1 folder = get_available_data w2 folder) /\
  (forall files files',
     listdir w1 folder = IoOk files -> listdir w2 folder = IoOk files' ->
     Permutation files files' -> NoDup (omap key_of files) ->
     path_exists w1 folder = true ->
     exists out1 out2 dm1 dm2,
       get_available_data w1 folder = (out1, Ret dm1) /\
       get_available_data w2 folder = (out2, Ret dm2) /\
       forall tok date ty, lookup3 dm1 tok date ty = lookup3 dm2 tok date ty).
Proof.
  intros He. split.
  - intros Hl. rewrite !get_available_data_eq, He, Hl. reflexivity.
  - intros files files' H1 H2 Hp Hnd Hex.
    rewrite !get_available_data_eq, <- He, Hex, H1, H2. simpl.
    do 4 eexists. split; [reflexivity|]. split; [reflexivity|].
    intros tok date ty. apply discover_order; assumption.
Qed.

(** Two runs over the same three entries, the files having changed in
    between. *)
Lemma discovery_idempotent_witness :
  get_available_data (listing_world pair_listing) DATA_FOLDER
  = get_available_data (listing_world_later pair_listing) DATA_FOLDER.
Proof.
  apply (discovery_idempotent (listing_world pair_listing)
                              (listing_world_later pair_listing) DATA_FOLDER).
  - reflexivity.
  - reflexivity.
Defined.

(** ** The report parser *)

Import Report.

(** C5: a report whose text has no "Bot Activity Risk" line parses,
    without an exception, into metrics whose [bot_risk] is the default 0.0;
    and so for each of the nine lines: when the text has no such line, its
    metric keeps its default, 0.0 for a score and 0 for a count, whatever
    the other lines are. *)
Theorem report_lines_optional (w : world) (path content : str) :
  file_at w path = Text content ->
  exists out m,
    parse_risk_report w path = (out, Ret m) /\
    (contains (lit "Bot Activity Risk") content = false ->
     m !! "bot_risk" = Some (PyFloat 0 1)) /\
    (~ occurs (score_line "Bot Activity Risk") content ->
     m !! "bot_risk" = Some (PyFloat 0 1)) /\
    (forall key line d,
       In (key, line, d) report_lines -> ~ occurs line content -> m !! key = Some d).
Proof.
  intros Hf. destruct (parse_risk_report_returns w path) as [out Hout].
  exists out, (snd (parse_body w path default_metrics)).
  split; [exact Hout|].
  assert (Hall : forall key line d,
             In (key, line, d) report_lines -> ~ occurs line content ->
             snd (parse_body w path default_metrics) !! key = Some d)
    by (intros key line d; apply parse_body_default; exact Hf).
  assert (Hbot : In ("bot_risk", score_line "Bot Activity Risk", PyFloat 0 1) report_lines)
    by (simpl; auto 10).
  split; [|split; [|exact Hall]].
  - intros Hc. apply (Hall _ _ _ Hbot). apply no_label_no_score_line. exact Hc.
  - apply (Hall _ _ _ Hbot).
Qed.

Lemma report_lines_optional_witness :
  exists out m,
    parse_risk_report (report_world report_without_bot_line) (lit "r.txt") = (out, Ret m) /\
    (contains (lit "Bot Activity Risk") report_without_bot_line = false ->
     m !! "bot_risk" = Some (PyFloat 0 1)) /\
    (~ occurs (score_line "Bot Activity Risk") report_without_bot_line ->
     m !! "bot_risk" = Some (PyFloat 0 1)) /\
    (forall key line d,
       In (key, line, d) report_lines -> ~ occurs line report_without_bot_line ->
       m !! key = Some d).
Proof.
  apply (report_lines_optional (report_world report_without_bot_line) (lit "r.txt")).
  reflexivity.
Defined.

(** C10: the report parser returns for every path, readable or not: it
    never raises, its result holds the nine metric keys and no other, the
    five scores as floats and the four counts as integers, and a file that
    cannot be read gives the defaults, 0.0 and 0. *)
Theorem parse_risk_report_total (w : world) (path : str) :
  exists out m,
    parse_risk_report w path = (out, Ret m) /\
    (forall k, In k score_keys -> exists a b, m !! k = Some (PyFloat a b)) /\
    (forall k, In k count_keys -> exists n, m !! k = Some (PyInt n)) /\
    (forall k, ~ In k (score_keys ++ count_keys) -> m !! k = None) /\
    ((forall content, file_at w path <> Text content) -> m = default_metrics).
Proof.
  destruct (parse_risk_report_returns w path) as [out Hout].
  exists out, (snd (parse_body w path default_metrics)).
  split; [exact Hout|].
  destruct (parse_body_ok w path) as [Hk _].
  split; [|split; [|split]].
  - intros k Hin. specialize (Hk k). simpl in Hin.
    repeat (destruct Hin as [<-|Hin];
            [destruct Hk as ([a b|n] & Hv & Hs); [eauto|destruct Hs]|]).
    destruct Hin.
  - intros k Hin. specialize (Hk k). simpl in Hin.
    repeat (destruct Hin as [<-|Hin];
            [destruct Hk as ([a b|n] & Hv & Hs); [destruct Hs|eauto]|]).
    destruct Hin.
  - intros k Hin. specialize (Hk k). unfold kind_of_key in Hk.
    repeat case_decide; try exact Hk; subst k; exfalso; apply Hin; simpl; auto 10.
  - intros Hno. rewrite parse_body_steps. unfold open_read.
    destruct (file_at w path) as [| | |content]; try reflexivity.
    destruct (Hno content). reflexivity.
Qed.

(** ** The viewer's selection and its table *)

Import Table.

(** C2 (what the script does; the property itself fails): with only one
    artifact of a pair in the folder, the script does not reach either of
    its "missing" messages: [files['report']] (or [files['analysis']])
    raises [KeyError] while the sidebar captions are rendered, and that
    exception ends the script. *)
Theorem dashboard_one_artifact_raises :
  (exists out,
     dashboard (listing_world [lit "ABC_risk_analysis_20240101_120000.csv"]) default_picks
     = (out, Raise (KeyError (KStr (lit "report")))) /\
     forall msg, ~ In (st_error_missing msg) out) /\
  (exists out,
     dashboard (listing_world [lit "ABC_risk_report_20240101_120000.txt"]) default_picks
     = (out, Raise (KeyError (KStr (lit "analysis")))) /\
     forall msg, ~ In (st_error_missing msg) out).
Proof.
  split; eexists; (split; [vm_compute; reflexivity|]);
    intros msg Hin; simpl in Hin; intuition discriminate.
Qed.

Ltac perm_head :=
  lazymatch goal with
  | |- Permutation [] [] => apply perm_nil
  | |- Permutation (?a :: _) ?l =>
      let rec go pre post :=
        lazymatch post with
        | a :: ?rest => apply (Permutation_cons_app pre rest a)
        | ?b :: ?rest => go constr:(pre ++ [b]) rest
        end in
      go constr:(@nil row) l; cbn [app]
  end.

Lemma exchanges_ties_in_contract :
  pandas_sorted_desc (score_at 1) (rows twenty_wallets)
    (quicksort_desc exchanges_ties (score_at 1) (rows twenty_wallets)).
Proof.
  split.
  - cbv. repeat perm_head.
  - vm_compute. repeat constructor.
Qed.

(** C3, the counterexample: on the twenty wallets a descending sort that
    is not stable shows the third row before the second, both with score
    95, so the top ten do not keep the table's order among equal scores. *)
Lemma top_10_is_stable_fails : ~ top_10_is_stable.
Proof.
  intros H.
  specialize (H exchanges_ties twenty_wallets _ 1%nat eq_refl exchanges_ties_in_contract
                eq_refl (wallet_row "w03" 95) (wallet_row "w02" 95) eq_refl).
  destruct H as (l1 & l2 & l3 & Heq).
  - exists [wallet_row "w01" 99], [],
      (drop 3 (take 10 (quicksort_desc exchanges_ties (score_at 1) (rows twenty_wallets)))).
    reflexivity.
  - cbv in Heq.
    destruct l1 as [|? l1]; [discriminate|]. injection Heq as _ Heq.
    destruct l1 as [|? l1]; [discriminate|]. injection Heq as _ Heq.
    destruct l1 as [|? l1].
    + injection Heq as Heq.
      repeat (destruct l2 as [|? l2]; [discriminate|]; injection Heq as _ Heq).
      destruct l2; discriminate.
    + injection Heq as _ Heq.
      repeat (destruct l1 as [|? l1]; [discriminate|]; injection Heq as _ Heq).
      destruct l1; discriminate.
Qed.

(** C3, as amended: the top ten are the first ten rows of a descending
    sort: as many rows as the table has, up to ten; no row before a row
    with a larger score, rows without a score last; and no omitted row
    has a larger score than a row that is shown. *)
Theorem top_10_sorted (w : world) (df : dataframe) (i : nat) :
  index_of risk_score (columns df) = Some i ->
  pandas_sorted_desc (score_at i) (rows df) (quicksort_desc w (score_at i) (rows df)) ->
  exists top,
    top_10 w df = Ret top /\
    columns top = columns df /\
    length (rows top) = Nat.min 10 (length (rows df)) /\
    ForallOrdPairs (fun a b => may_precede (score_at i a) (score_at i b) = true)
                   (rows top) /\
    exists omitted,
      Permutation (rows df) (rows top ++ omitted) /\
      forall a b, In a (rows top) -> In b omitted ->
                  may_precede (score_at i a) (score_at i b) = true.
Proof.
  intros Hi Hs. rewrite (top_10_eq w df i Hi). eexists. split; [reflexivity|].
  destruct (take_10_sorted _ _ _ Hs) as (Hlen & Hord & Hperm & Hrest).
  simpl. split; [reflexivity|]. split; [exact Hlen|]. split; [exact Hord|].
  exists (drop 10 (quicksort_desc w (score_at i) (rows df))). auto.
Qed.

Lemma top_10_sorted_witness :
  exists top,
    top_10 exchanges_ties twenty_wallets = Ret top /\
    columns top = columns twenty_wallets /\
    length (rows top) = Nat.min 10 (length (rows twenty_wallets)) /\
    ForallOrdPairs (fun a b => may_precede (score_at 1 a) (score_at 1 b) = true)
                   (rows top) /\
    exists omitted,
      Permutation (rows twenty_wallets) (rows top ++ omitted) /\
      forall a b, In a (rows top) -> In b omitted ->
                  may_precede (score_at 1 a) (score_at 1 b) = true.
Proof.
  apply (top_10_sorted exchanges_ties twenty_wallets 1).
  - reflexivity.
  - exact exchanges_ties_in_contract.
Defined.





(** ** The pipeline *)

Import Pipeline.

(** C1: the wash-trading stage has no failure isolation.  For every list
    of tokens, when the turns before a token ran to their end, the token's
    turn enters the wash-trading stage and the detector raises, that
    exception leaves the loop: the run ends with it, no later token is
    started, and [main] ends with it before its closing lines.  The
    holder-analysis, bot-detection and combined-scoring stages are unlike
    it: an [Exception] leaves a turn only from a fetch, from the write of
    the flows or from the wash-trading detector. *)
Theorem wash_trading_stage_not_isolated
        (cfg : config) (p : partners) (pre : list str) (tok : str)
        (post : list str) (e : exn) (out_pre : list event) :
  token_loop cfg p 0 pre = (out_pre, Ret tt) ->
  In (enter wash_trading tok) (fst (analyze_token cfg (turn_of p (length pre)) tok)) ->
  wash_raises (turn_of p (length pre)) e ->
  (exists out,
     token_loop cfg p 0 (pre ++ tok :: post) = (out, Raise e) /\
     analysed out = pre ++ [tok] /\
     ~ In (enter bot_detection tok)
          (fst (analyze_token cfg (turn_of p (length pre)) tok)) /\
     (validate cfg = true -> LiveDataFetcher p = Ret tt ->
      TOKENS cfg = pre ++ tok :: post ->
      main cfg p = (print_start (CHAIN cfg) :: out, Raise e) /\
      ~ In (print_complete (OUTPUT_DIR cfg)) (fst (main cfg p)))) /\
  (forall t tok' out' e',
     analyze_token cfg t tok' = (out', Raise e') -> is_Exception e' = true ->
     fetch_token_holders t = Raise e' \/ fetch_and_process_token t = Raise e' \/
     to_csv t = Raise e' \/ wash_raises t e').
Proof.
  intros Hpre Hin Hw. split; [|intros t tok' out' e'; apply exception_sources].
  destruct (wash_escapes cfg _ tok e Hin Hw) as (Hr & Hbot & _).
  pose proof (analyze_token_analysed cfg (turn_of p (length pre)) tok) as Ha.
  destruct (analyze_token cfg (turn_of p (length pre)) tok) as [out_t r] eqn:Et.
  simpl in Hr, Ha, Hbot. subst r.
  assert (Hloop : token_loop cfg p 0 (pre ++ tok :: post) = (out_pre ++ out_t, Raise e)).
  { rewrite token_loop_app, Hpre. simpl. rewrite Et. reflexivity. }
  exists (out_pre ++ out_t). split; [exact Hloop|]. split; [|split; [exact Hbot|]].
  - rewrite analysed_app, Ha, (token_loop_analysed _ _ _ _ _ Hpre). reflexivity.
  - intros Hv Hf Ht.
    assert (Hmain : main cfg p = (print_start (CHAIN cfg) :: out_pre ++ out_t, Raise e)).
    { unfold main. rewrite Hv, Hf, Ht, Hloop. reflexivity. }
    split; [exact Hmain|]. rewrite Hmain. simpl. intros [Hc|Hc]; [discriminate|].
    apply (token_loop_not_complete cfg p (OUTPUT_DIR cfg) (pre ++ tok :: post) 0).
    rewrite Hloop. exact Hc.
Qed.

(** Three tokens, the detector failing on the second: the third is never
    started. *)
Lemma wash_trading_stage_not_isolated_witness :
  exists out,
    main demo_config wash_fails_second = (out, Raise (Failure "wash trading")) /\
    analysed out = [token_A; token_B].
Proof.
  destruct (wash_trading_stage_not_isolated
              demo_config wash_fails_second [token_A] token_B [token_C]
              (Failure "wash trading")
              (fst (token_loop demo_config wash_fails_second 0 [token_A])))
    as [(out & Hloop & Han & _ & Hmain) _].
  - reflexivity.
  - vm_compute. auto 10.
  - right. right. repeat split; reflexivity.
  - destruct (Hmain eq_refl eq_refl eq_refl) as [Hm _].
    exists (print_start (CHAIN demo_config) :: out). split; [exact Hm|exact Han].
Defined.

(** C4: a failure of an early stage stays in that stage.  When the holder
    fetch returns no data the turn prints its warning, skips the holder
    analysis and goes on with the transfer fetch and the later stages; when
    the holder analyzer raises an [Exception] it is caught and printed and
    the turn goes on in the same way; either way the rest of the run is the
    later stages of this token followed by the turns of the next tokens,
    so that the next token is started as soon as those later stages
    return. *)
Theorem early_stage_failures_isolated
        (cfg : config) (p : partners) (i : nat) (tok : str) (rest : list str) :
  (fetch_token_holders (turn_of p i) = Ret false ->
   token_loop cfg p i (tok :: rest) =
   (([print_analyzing tok; enter holder_fetch tok; print_skip_holder], Ret tt) ;;;
    later_stages cfg (turn_of p i) tok ;;; token_loop cfg p (S i) rest) /\
   ~ In (enter holder_analysis tok) (fst (analyze_token cfg (turn_of p i) tok))) /\
  (forall e,
     fetch_token_holders (turn_of p i) = Ret true ->
     holder_raises (turn_of p i) e -> is_Exception e = true ->
     token_loop cfg p i (tok :: rest) =
     (([print_analyzing tok; enter holder_fetch tok; enter holder_analysis tok;
        print_holder_failed e], Ret tt) ;;;
      later_stages cfg (turn_of p i) tok ;;; token_loop cfg p (S i) rest)) /\
  (exists out, fst (later_stages cfg (turn_of p i) tok) = enter transfer_fetch tok :: out) /\
  (forall next rest' out,
     rest = next :: rest' ->
     fetch_token_holders (turn_of p i) = Ret false \/
     (exists e, fetch_token_holders (turn_of p i) = Ret true /\
                holder_raises (turn_of p i) e /\ is_Exception e = true) ->
     later_stages cfg (turn_of p i) tok = (out, Ret tt) ->
     In (enter transfer_fetch tok) (fst (token_loop cfg p i (tok :: rest))) /\
     In (print_analyzing next) (fst (token_loop cfg p i (tok :: rest)))).
Proof.
  split; [|split; [|split]].
  - intros Hh. split.
    + rewrite token_loop_cons, (holder_stages_no_data _ _ Hh). reflexivity.
    + rewrite analyze_token_split, (holder_stages_no_data _ _ Hh), fst_bind.
      cbn [fst snd]. intros Hin. apply in_app_or in Hin as [Hin|Hin].
      * simpl in Hin. intuition discriminate.
      * clear -Hin. unfold later_stages, wash_stage, guarded_stages, stage_call,
          try_except, bind, lift, emit, ret in Hin.
        repeat (case_match; simplify_eq/=; try (destruct (is_Exception _) eqn:?));
          simplify_eq/=; intuition discriminate.
  - intros e Hh Hr He.
    rewrite token_loop_cons, (holder_stages_caught _ _ _ Hh Hr He). reflexivity.
  - apply later_stages_start.
  - intros next rest' out -> Hcase Hlater.
    assert (Hhold : exists o, holder_stages (turn_of p i) tok = (o, Ret tt)).
    { destruct Hcase as [Hh|(e & Hh & Hr & He)].
      - rewrite (holder_stages_no_data _ _ Hh). eauto.
      - rewrite (holder_stages_caught _ _ _ Hh Hr He). eauto. }
    destruct Hhold as [o Ho].
    destruct (later_stages_start cfg (turn_of p i) tok) as [o' Hstart].
    rewrite Hlater in Hstart. simpl in Hstart. subst out.
    destruct (analyze_token_start cfg (turn_of p (S i)) next) as [o2 Hnext].
    rewrite token_loop_cons, Ho, bind_Ret, fst_bind, Hlater. cbn [fst snd].
    change (token_loop cfg p (S i) (next :: rest'))
      with (analyze_token cfg (turn_of p (S i)) next ;;; token_loop cfg p (S (S i)) rest').
    rewrite fst_bind, Hnext. split.
    + apply in_or_app. right. left. reflexivity.
    + apply in_or_app. right. apply in_or_app. right. left. reflexivity.
Qed.

Lemma early_stage_failures_isolated_witness :
  In (enter transfer_fetch token_A)
     (fst (token_loop demo_config no_holders_first 0 [token_A; token_B])) /\
  In (print_analyzing token_B)
     (fst (token_loop demo_config no_holders_first 0 [token_A; token_B])).
Proof.
  apply (proj2 (proj2 (proj2 (early_stage_failures_isolated
           demo_config no_holders_first 0 token_A [token_B])))
           token_B [] (fst (later_stages demo_config no_holders token_A))).
  - reflexivity.
  - left. reflexivity.
  - reflexivity.
Defined.

(** ** Further properties *)

(** X1: whatever the folder holds and whatever is selected, the viewer
    renders neither "Text report file missing for this selection." nor
    "CSV analysis file missing for this selection.": discovery stores
    non-empty paths only, so a key that is present is never false, and a
    key that is absent raises before the messages are reached. *)
Theorem missing_messages_unreachable (w : world) (user : picks) :
  forall msg, ~ In (st_error_missing msg) (fst (dashboard w user)).
Proof. exact (Viewer.dashboard_quiet w user). Qed.


